(** * buildassets: summarising the output of a Go build

    A shallow embedding of [buildmodel/buildassets/buildassets.go]:
    [GetDockerRepoTargetBranch], [getVersion] and [CreateSummary], with the
    pieces of Go's standard library they call ([strings], [path], [bufio],
    [os], [sort]) modelled next to them.

    Go strings are byte sequences: they are [string] here, one [ascii] per
    byte.  A Go call that can fault at run time (an index out of range) is
    modelled with an explicit [Panics] outcome, and the pair
    pair of a manifest pointer and an error that a Go function returns is
    kept as a pair of options, so that a nil manifest and a nil error are
    separate facts. *)

From Stdlib Require Import ZArith Lia Ascii String List Permutation Sorted.
From stdpp Require Import base option list strings gmap fin_maps sorting.

Local Open Scope Z_scope.
Local Open Scope nat_scope.

(** ** Go's [strings] package *)

Module strings.

(** [s[i:j]] on a string, for [i <= j <= len(s)]. *)
Definition slice (s : string) (i j : nat) : string :=
  String.substring i (j - i) s.

(** [len(s) >= len(prefix) && s[:len(prefix)] == prefix] *)
Definition HasPrefix (s prefix : string) : bool :=
  (String.length prefix <=? String.length s)
  && String.eqb (slice s 0 (String.length prefix)) prefix.

(** [len(s) >= len(suffix) && s[len(s)-len(suffix):] == suffix] *)
Definition HasSuffix (s suffix : string) : bool :=
  (String.length suffix <=? String.length s)
  && String.eqb
       (slice s (String.length s - String.length suffix) (String.length s))
       suffix.

Definition TrimPrefix (s prefix : string) : string :=
  if HasPrefix s prefix
  then slice s (String.length prefix) (String.length s)
  else s.

Definition TrimSuffix (s suffix : string) : string :=
  if HasSuffix s suffix
  then slice s 0 (String.length s - String.length suffix)
  else s.

(** [LastIndex(s, sep)] for a one-byte [sep]: the index of the last
    occurrence, or [-1]. *)
Fixpoint lastIndexFrom (i : Z) (s : string) (sep : ascii) (found : Z) : Z :=
  match s with
  | EmptyString => found
  | String c s' =>
      lastIndexFrom (i + 1) s' sep (if Ascii.eqb c sep then i else found)
  end.

Definition LastIndex (s : string) (sep : ascii) : Z :=
  lastIndexFrom 0%Z s sep (-1)%Z.

(** [Split(s, sep)] for a one-byte [sep]: the substrings between the
    separators, one more than there are separators. *)
Fixpoint Split (s : string) (sep : ascii) : list string :=
  match s with
  | EmptyString => [EmptyString]
  | String c s' =>
      if Ascii.eqb c sep then EmptyString :: Split s' sep
      else match Split s' sep with
           | part :: parts => String c part :: parts
           | [] => [String c EmptyString]
           end
  end.

(** White space as [unicode.IsSpace] sees it, read off the UTF-8 bytes at
    the head of [s]: the width in bytes of the space character that starts
    there, [0] when none does.  The one-byte cases are the table
    [asciiSpace]; the others are U+0085, U+00A0, U+1680, U+2000..U+200A,
    U+2028, U+2029, U+202F, U+205F and U+3000. *)
Definition spaceWidth (s : string) : nat :=
  match List.map nat_of_ascii (list_ascii_of_string (String.substring 0 3 s)) with
  | 9 :: _ | 10 :: _ | 11 :: _ | 12 :: _ | 13 :: _ | 32 :: _ => 1
  | 194 :: 133 :: _ | 194 :: 160 :: _ => 2
  | 225 :: 154 :: 128 :: _ => 3
  | 226 :: 128 :: b :: _ =>
      if (128 <=? b) && (b <=? 138) || (b =? 168) || (b =? 169) || (b =? 175)
      then 3 else 0
  | 226 :: 129 :: 159 :: _ => 3
  | 227 :: 128 :: 128 :: _ => 3
  | _ => 0
  end.

(** [Fields(s)]: the maximal runs of non-space bytes, in order.  [skip]
    counts the remaining bytes of a multi-byte space character, [cur] is
    the field being read. *)
Definition flush (cur : string) : list string :=
  match cur with EmptyString => [] | _ => [cur] end.

Fixpoint fieldsFrom (s : string) (skip : nat) (cur : string) : list string :=
  match s with
  | EmptyString => flush cur
  | String c s' =>
      match skip with
      | S k => fieldsFrom s' k cur
      | O =>
          match spaceWidth s with
          | O => fieldsFrom s' 0 (cur +:+ String c EmptyString)
          | S k => flush cur ++ fieldsFrom s' k EmptyString
          end
      end
  end.

Definition Fields (s : string) : list string := fieldsFrom s 0 EmptyString.

End strings.

(** ** Go's [path] package *)

Module path.

Fixpoint joinWith (sep : string) (parts : list string) : string :=
  match parts with
  | [] => EmptyString
  | [p] => p
  | p :: rest => p +:+ sep +:+ joinWith sep rest
  end.

(** One step of [Clean] on the components kept so far (innermost first):
    empty and [.] components vanish, [..] removes the component before it,
    is dropped at the root, and is kept otherwise. *)
Definition cleanStep (rooted : bool) (kept : list string) (c : string)
  : list string :=
  if String.eqb c "" || String.eqb c "." then kept
  else if String.eqb c ".." then
    match kept with
    | top :: below => if String.eqb top ".." then c :: kept else below
    | [] => if rooted then kept else [c]
    end
  else c :: kept.

Definition Clean (p : string) : string :=
  let rooted := strings.HasPrefix p "/" in
  let kept := fold_left (cleanStep rooted) (strings.Split p "/"%char) [] in
  let body := joinWith "/" (rev kept) in
  if rooted then "/" +:+ body
  else if String.eqb body "" then "." else body.

(** [Join(elem...)]: the non-empty elements joined by [/] and cleaned; the
    empty string when all of them are empty. *)
Definition Join (elem : list string) : string :=
  match List.filter (fun e => negb (String.eqb e "")) elem with
  | [] => EmptyString
  | parts => Clean (joinWith "/" parts)
  end.

End path.

(** ** Errors, faults and the two ways a call can end *)

(** Go [error] values, as far as this package tells them apart. *)
Inductive error : Type :=
| ErrNotExist                                (* os.ErrNotExist *)
| OSError (msg : string)                     (* any other failure of the os *)
| ErrTooLong                                 (* bufio.ErrTooLong *)
| Errorf (msg : string) (wrapped : error).   (* fmt.Errorf("msg: %w", err) *)

(** Run-time faults. *)
Inductive panic : Type :=
| IndexOutOfRange (index len : nat).

(** A call either returns its results or faults. *)
Inductive run (A : Type) : Type :=
| Returns (a : A)
| Panics (p : panic).
Arguments Returns {A} a.
Arguments Panics {A} p.

(** What one iteration of a loop inside a function does: go on with the
    next iteration, make the function return an error, or fault. *)
Inductive flow (St : Type) : Type :=
| Next (s : St)
| ReturnErr (err : error)
| Fault (p : panic).
Arguments Next {St} s.
Arguments ReturnErr {St} err.
Arguments Fault {St} p.

(** [xs[i]] on a slice. *)
Definition index {A : Type} (xs : list A) (i : nat) : run A :=
  match nth_error xs i with
  | Some x => Returns x
  | None => Panics (IndexOutOfRange i (List.length xs))
  end.

(** ** The file system, as [os] shows it *)

(** What opening and reading a path yields. *)
Inductive fileState : Type :=
| Absent                   (* open fails, and the error is os.ErrNotExist *)
| Unopenable (err : error) (* open fails for another reason *)
| Unreadable (err : error) (* open succeeds, reading fails *)
| Content (data : string). (* open and read succeed *)

Record DirEntry : Type := mkDirEntry { Name : string; IsDir : bool }.

Record FS : Type := mkFS {
  file : string -> fileState;
  dir : string -> list DirEntry + error   (* os.ReadDir *)
}.

Definition os_ReadFile (fs : FS) (name : string) : string + error :=
  match file fs name with
  | Absent => inr ErrNotExist
  | Unopenable err => inr err
  | Unreadable err => inr err
  | Content data => inl data
  end.

(** ** Go's [bufio.Scanner], for its first [Scan] with [ScanLines] *)

Module bufio.

Definition MaxScanTokenSize : nat := 64 * 1024.

(** The bytes before the first line feed, when there is one. *)
Fixpoint untilNewline (data : string) : option string :=
  match data with
  | EmptyString => None
  | String c rest =>
      if Ascii.eqb c "010"%char then Some EmptyString
      else String c <$> untilNewline rest
  end.

(** [dropCR]: a line loses one trailing carriage return. *)
Fixpoint dropCR (line : string) : string :=
  match line with
  | EmptyString => EmptyString
  | String c EmptyString =>
      if Ascii.eqb c "013"%char then EmptyString else line
  | String c rest => String c (dropCR rest)
  end.

(** The first [Scan] over [data] followed by [Err] and [Text]: the first
    line, or [ErrTooLong] when the buffer fills up to [MaxScanTokenSize]
    bytes before a line feed or the end of the input is seen.  With
    nothing to read [Scan] is false and [Text] is empty. *)
Definition firstLine (data : string) : string + error :=
  match untilNewline data with
  | Some line =>
      if String.length line <? MaxScanTokenSize then inl (dropCR line)
      else inr ErrTooLong
  | None =>
      if String.length data <? MaxScanTokenSize then inl (dropCR data)
      else inr ErrTooLong
  end.

End bufio.

(** ** The data model *)

(** Modelled from the spec: [dockerversions.ArchEnv] and
    [dockerversions.Arch] are declared in another package of the repository;
    these are the fields the spec's ArchEntry gives them (platform os and
    architecture, url, sha256), under the names this package uses. *)
Record ArchEnv : Type := mkArchEnv { GOOS : string; GOARCH : string }.

Record Arch : Type := mkArch { Env : ArchEnv; SHA256 : string; URL : string }.

(** [&dockerversions.Arch{}] *)
Definition zeroArch : Arch :=
  {| Env := {| GOOS := ""; GOARCH := "" |}; SHA256 := ""; URL := "" |}.

Record BuildAssets : Type := mkBuildAssets {
  Branch : string;
  BuildID : string;
  Version : string;
  Arches : list Arch
}.

Record BuildResultsDirectoryInfo : Type := mkInfo {
  SourceDir : string;
  ArtifactsDir : string;
  DestinationURL : string;
  InfoBranch : string;   (* field Branch *)
  InfoBuildID : string   (* field BuildID *)
}.

Definition archiveSuffixes : list string := [".tar.gz"; ".zip"].
Definition checksumSuffix : string := ".sha256".

(** ** GetDockerRepoTargetBranch *)

Definition GetDockerRepoTargetBranch (b : BuildAssets) : string :=
  if String.eqb (Branch b) "main" || strings.HasPrefix (Branch b) "release-branch."
  then "microsoft/main"
  else if strings.HasPrefix (Branch b) "dev/official/"
  then Branch b
  else "".

(** ** getVersion *)

(** [os.Open], then the first [Scan] of a [bufio.Scanner] over the file:
    the default for a file that does not exist, the first line of one that
    does, and the empty string with an error for anything else. *)
Definition getVersion (fs : FS) (path defaultVersion : string)
  : string * option error :=
  match file fs path with
  | Absent => (defaultVersion, None)
  | Unopenable err =>
      ("", Some (Errorf ("unable to open VERSION file '" +:+ path +:+ "'") err))
  | Unreadable err =>
      ("", Some (Errorf ("unable to read VERSION file '" +:+ path +:+ "'") err))
  | Content data =>
      match bufio.firstLine data with
      | inl text => (text, None)
      | inr err =>
          ("", Some (Errorf ("unable to read VERSION file '" +:+ path +:+ "'") err))
      end
  end.

(** ** The runtime's choices *)

(** Two things in [CreateSummary] are left to the Go runtime: the order in
    which [range] visits a map, which Go leaves unspecified and randomises,
    and the permutation [sort.Slice] settles on, which need not be stable.
    A [Runtime] fixes both for one call. *)
Record Runtime : Type := mkRuntime {
  mapRange : gmap string Arch -> list Arch;
  sortSlice : (Arch -> Arch -> bool) -> list Arch -> list Arch
}.

(** [less] orders its arguments like a strict weak order does: never both
    ways round, and "not after" is transitive. *)
Definition strictWeak {A : Type} (less : A -> A -> bool) : Prop :=
  (forall x y, less x y = true -> less y x = false)
  /\ (forall x y z, less y x = false -> less z y = false -> less z x = false).

(** [l] is in the order [less] asks for: no element is less than one
    before it. *)
Definition sortedBy {A : Type} (less : A -> A -> bool) (l : list A) : Prop :=
  StronglySorted (fun x y => less y x = false) l.

(** What Go promises of the two: [range] visits every value of the map
    once, [sort.Slice] permutes the slice and leaves it in order. *)
Definition lawful (rt : Runtime) : Prop :=
  (forall m, Permutation (mapRange rt m) (List.map snd (map_to_list m)))
  /\ (forall less l, Permutation (sortSlice rt less l) l)
  /\ (forall less l, strictWeak less -> sortedBy less (sortSlice rt less l)).

(** ** CreateSummary *)

(** The closure [getOrCreateArch]: the entry for [name], registered empty
    when there is none.  The pointer it returns is the pair of the key and
    the value found there; a later store through the pointer is
    [storeArch]. *)
Definition getOrCreateArch (archMap : gmap string Arch) (name : string)
  : gmap string Arch * Arch :=
  match archMap !! name with
  | Some arch => (archMap, arch)
  | None => (<[name := zeroArch]> archMap, zeroArch)
  end.

Definition storeArch (archMap : gmap string Arch) (name : string) (a : Arch)
  : gmap string Arch :=
  <[name := a]> archMap.

(** The body of [if strings.HasSuffix(e.Name(), checksumSuffix)]. *)
Definition checksumFile (fs : FS) (fullPath name : string)
  (archMap : gmap string Arch) : flow (gmap string Arch) :=
  let key := strings.TrimSuffix name checksumSuffix in
  let '(archMap, a) := getOrCreateArch archMap key in
  match os_ReadFile fs fullPath with
  | inr err =>
      ReturnErr
        (Errorf ("unable to read checksum file '" +:+ fullPath +:+ "'") err)
  | inl checksumLine =>
      match index (strings.Fields checksumLine) 0 with
      | Panics p => Fault p
      | Returns sum =>
          Next (storeArch archMap key
                  {| Env := Env a; SHA256 := sum; URL := URL a |})
      end
  end.

(** The OS/ARCH part of an archive's file name, split at the dashes: what
    is left of [name] without [suffix], from after its last dot on. *)
Definition osArchParts (name suffix : string) : list string :=
  let extensionless := strings.TrimSuffix name suffix in
  let osArch :=
    strings.slice extensionless
      (Z.to_nat (strings.LastIndex extensionless "."%char + 1))
      (String.length extensionless) in
  strings.Split osArch "-"%char.

(** The body of [if strings.HasSuffix(e.Name(), suffix)] in the loop over
    [archiveSuffixes]. *)
Definition archiveFile (b : BuildResultsDirectoryInfo) (name suffix : string)
  (archMap : gmap string Arch) : flow (gmap string Arch) :=
  let osArchParts := osArchParts name suffix in
  match index osArchParts 0 with
  | Panics p => Fault p
  | Returns goOS =>
      match index osArchParts 1 with
      | Panics p => Fault p
      | Returns goArch =>
          let '(archMap, a) := getOrCreateArch archMap name in
          Next (storeArch archMap name
                  {| Env := {| GOOS := goOS; GOARCH := goArch |};
                     SHA256 := SHA256 a;
                     URL := DestinationURL b +:+ "/" +:+ name |})
      end
  end.

(** [for _, suffix := range archiveSuffixes]: the first suffix that matches
    is used and ends the loop. *)
Fixpoint archiveLoop (b : BuildResultsDirectoryInfo) (name : string)
  (suffixes : list string) (archMap : gmap string Arch)
  : flow (gmap string Arch) :=
  match suffixes with
  | [] => Next archMap
  | suffix :: rest =>
      if strings.HasSuffix name suffix then archiveFile b name suffix archMap
      else archiveLoop b name rest archMap
  end.

(** One iteration of [for _, e := range entries].  (The line printed for
    each file goes to standard output and is not part of the result.) *)
Definition visitEntry (fs : FS) (b : BuildResultsDirectoryInfo)
  (archMap : gmap string Arch) (e : DirEntry) : flow (gmap string Arch) :=
  if IsDir e then Next archMap
  else
    let fullPath := path.Join [ArtifactsDir b; Name e] in
    if strings.HasSuffix (Name e) checksumSuffix
    then checksumFile fs fullPath (Name e) archMap
    else archiveLoop b (Name e) archiveSuffixes archMap.

Fixpoint visitEntries (fs : FS) (b : BuildResultsDirectoryInfo)
  (entries : list DirEntry) (archMap : gmap string Arch)
  : flow (gmap string Arch) :=
  match entries with
  | [] => Next archMap
  | e :: rest =>
      match visitEntry fs b archMap e with
      | Next archMap => visitEntries fs b rest archMap
      | stop => stop
      end
  end.

(** [if b.ArtifactsDir != ""] and what it guards. *)
Definition scanArtifacts (fs : FS) (b : BuildResultsDirectoryInfo)
  : flow (gmap string Arch) :=
  if String.eqb (ArtifactsDir b) "" then Next ∅
  else
    match dir fs (ArtifactsDir b) with
    | inr err => ReturnErr err
    | inl entries => visitEntries fs b entries ∅
    end.

Definition lessURL (x y : Arch) : bool := String.ltb (URL x) (URL y).

Definition CreateSummary (rt : Runtime) (fs : FS)
  (b : BuildResultsDirectoryInfo) : run (option BuildAssets * option error) :=
  let '(goVersion, err) := getVersion fs (path.Join [SourceDir b; "VERSION"]) "main" in
  match err with
  | Some err => Returns (None, Some err)
  | None =>
  let '(goRevision, err) :=
    getVersion fs (path.Join [SourceDir b; "MICROSOFT_REVISION"]) "1" in
  match err with
  | Some err => Returns (None, Some err)
  | None =>
  let goVersion := strings.TrimPrefix goVersion "go" in
  match scanArtifacts fs b with
  | ReturnErr err => Returns (None, Some err)
  | Fault p => Panics p
  | Next archMap =>
      let arches := mapRange rt archMap in
      let arches := sortSlice rt lessURL arches in
      Returns (Some {| Branch := InfoBranch b;
                       BuildID := InfoBuildID b;
                       Version := goVersion +:+ "-" +:+ goRevision;
                       Arches := arches |},
               None)
  end end end.

(** ** Two runtimes *)

(** Insertion sort, which is what [sort.Slice] runs on a slice of at most
    twelve elements; it keeps equal elements in the order it found them. *)
Fixpoint insertSorted {A : Type} (less : A -> A -> bool) (x : A) (l : list A)
  : list A :=
  match l with
  | [] => [x]
  | y :: rest =>
      if less x y then x :: l else y :: insertSorted less x rest
  end.

Definition insertionSort {A : Type} (less : A -> A -> bool) (l : list A)
  : list A :=
  fold_left (fun sorted x => insertSorted less x sorted) l [].

(** A runtime whose [range] visits the map in the order of [map_to_list],
    and one whose [range] visits it the other way round. *)
Definition forwardRuntime : Runtime :=
  {| mapRange := fun m => List.map snd (map_to_list m);
     sortSlice := @insertionSort Arch |}.

Definition backwardRuntime : Runtime :=
  {| mapRange := fun m => rev (List.map snd (map_to_list m));
     sortSlice := @insertionSort Arch |}.

(** ** The inputs, classified *)

(** The two marker files [CreateSummary] looks for. *)
Definition versionPath (b : BuildResultsDirectoryInfo) : string :=
  path.Join [SourceDir b; "VERSION"].

Definition revisionPath (b : BuildResultsDirectoryInfo) : string :=
  path.Join [SourceDir b; "MICROSOFT_REVISION"].

(** The path [CreateSummary] reads a directory entry from. *)
Definition artifactPath (b : BuildResultsDirectoryInfo) (name : string)
  : string :=
  path.Join [ArtifactsDir b; name].

(** A marker file that is there and cannot be read to the end of its first
    line. *)
Definition markerUnreadable (fs : FS) (path : string) : bool :=
  match file fs path with
  | Absent => false
  | Unopenable _ | Unreadable _ => true
  | Content data =>
      match bufio.firstLine data with inl _ => false | inr _ => true end
  end.

Definition isChecksumFile (e : DirEntry) : bool :=
  negb (IsDir e) && strings.HasSuffix (Name e) checksumSuffix.

(** The archive suffix a file name ends with, the first of
    [archiveSuffixes] that fits. *)
Definition archiveSuffixOf (name : string) : option string :=
  List.find (fun suffix => strings.HasSuffix name suffix) archiveSuffixes.

Definition isArchiveFile (e : DirEntry) : bool :=
  negb (IsDir e) && negb (strings.HasSuffix (Name e) checksumSuffix)
  && match archiveSuffixOf (Name e) with Some _ => true | None => false end.

(** A checksum file that cannot be read. *)
Definition checksumUnreadable (fs : FS) (b : BuildResultsDirectoryInfo)
  (e : DirEntry) : bool :=
  isChecksumFile e
  && match os_ReadFile fs (artifactPath b (Name e)) with
     | inr _ => true
     | inl _ => false
     end.

(** A checksum file that can be read and holds no token. *)
Definition checksumWithoutToken (fs : FS) (b : BuildResultsDirectoryInfo)
  (e : DirEntry) : bool :=
  isChecksumFile e
  && match os_ReadFile fs (artifactPath b (Name e)) with
     | inl data =>
         match strings.Fields data with [] => true | _ => false end
     | inr _ => false
     end.

(** An archive whose OS/ARCH part does not split into exactly two. *)
Definition archiveMisnamed (e : DirEntry) : bool :=
  isArchiveFile e
  && match archiveSuffixOf (Name e) with
     | Some suffix => negb (List.length (osArchParts (Name e) suffix) =? 2)
     | None => false
     end.

(** The hard errors of a call: a marker file that is there but cannot be
    read, an artifacts directory that cannot be listed, a checksum file in
    it that cannot be read. *)
Definition hardError (fs : FS) (b : BuildResultsDirectoryInfo) : bool :=
  markerUnreadable fs (versionPath b)
  || markerUnreadable fs (revisionPath b)
  || negb (String.eqb (ArtifactsDir b) "")
     && match dir fs (ArtifactsDir b) with
        | inr _ => true
        | inl entries => existsb (checksumUnreadable fs b) entries
        end.

(** Ascending order of the urls along a list of entries. *)
Definition ascendingURLs (arches : list Arch) : Prop :=
  forall i j x y,
    i < j -> arches !! i = Some x -> arches !! j = Some y ->
    String.leb (URL x) (URL y) = true.

(** ** What the loop keeps true of the map *)

(** The entry the map has for [name], the empty one when it has none:
    what the pointer from [getOrCreateArch] points to. *)
Definition archAt (archMap : gmap string Arch) (name : string) : Arch :=
  default zeroArch (archMap !! name).

(** Every url in the map is empty or is the one of the entry's key. *)
Definition urlsFromKeys (b : BuildResultsDirectoryInfo)
  (archMap : gmap string Arch) : Prop :=
  forall key a,
    archMap !! key = Some a ->
    URL a = "" \/ URL a = DestinationURL b +:+ "/" +:+ key.

(** The map has the archive facts of [name]: its url, and the first two
    parts of its OS/ARCH part. *)
Definition hasArchiveFacts (b : BuildResultsDirectoryInfo)
  (name suffix : string) (archMap : gmap string Arch) : Prop :=
  exists a,
    archMap !! name = Some a
    /\ URL a = DestinationURL b +:+ "/" +:+ name
    /\ index (osArchParts name suffix) 0 = Returns (GOOS (Env a))
    /\ index (osArchParts name suffix) 1 = Returns (GOARCH (Env a)).

(** The map has the checksum fact of [name]: the first token of [data]. *)
Definition hasChecksumFact (name data : string)
  (archMap : gmap string Arch) : Prop :=
  exists a,
    archMap !! name = Some a
    /\ index (strings.Fields data) 0 = Returns (SHA256 a).

(** ** Sample inputs *)

(** A file system given by the files and the directories it has; every
    other path does not exist. *)
Definition sampleFS (files : list (string * fileState))
  (dirs : list (string * list DirEntry)) : FS :=
  {| file := fun p =>
       match List.find (fun kv => String.eqb (fst kv) p) files with
       | Some kv => snd kv
       | None => Absent
       end;
     dir := fun d =>
       match List.find (fun kv => String.eqb (fst kv) d) dirs with
       | Some kv => inl (snd kv)
       | None => inr ErrNotExist
       end |}.

Definition sampleInfo (artifactsDir : string) : BuildResultsDirectoryInfo :=
  {| SourceDir := "src";
     ArtifactsDir := artifactsDir;
     DestinationURL := "https://example.test/go";
     InfoBranch := "main";
     InfoBuildID := "42" |}.

(** No marker files; one checksum file, empty. *)
Definition fsEmptyChecksum : FS :=
  sampleFS [("out/go.linux-amd64.tar.gz.sha256", Content "")]
           [("out", [mkDirEntry "go.linux-amd64.tar.gz.sha256" false])].

(** No marker files; one archive whose name has no OS/ARCH part. *)
Definition fsMisnamedArchive : FS :=
  sampleFS [("out/go.tar.gz", Content "archive bytes")]
           [("out", [mkDirEntry "go.tar.gz" false])].

(** No marker files; one archive whose architecture has a dash in it. *)
Definition fsDashedArch : FS :=
  sampleFS [("out/go.linux-arm-v7.tar.gz", Content "archive bytes")]
           [("out", [mkDirEntry "go.linux-arm-v7.tar.gz" false])].

(** No marker files; two checksum files whose archives are missing. *)
Definition fsTwoChecksums : FS :=
  sampleFS [("out/a.tar.gz.sha256", Content "1111  a.tar.gz");
            ("out/b.tar.gz.sha256", Content "2222  b.tar.gz")]
           [("out", [mkDirEntry "a.tar.gz.sha256" false;
                     mkDirEntry "b.tar.gz.sha256" false])].

(** Both marker files, an archive and its checksum file, the checksum file
    listed first. *)
Definition fsRelease : FS :=
  sampleFS [("src/VERSION", Content "go1.21.0");
            ("src/MICROSOFT_REVISION", Content "3");
            ("out/go.1.21.0-3.linux-amd64.tar.gz", Content "archive bytes");
            ("out/go.1.21.0-3.linux-amd64.tar.gz.sha256",
             Content "abc123  go.tar.gz")]
           [("out", [mkDirEntry "go.1.21.0-3.linux-amd64.tar.gz.sha256" false;
                     mkDirEntry "go.1.21.0-3.linux-amd64.tar.gz" false])].

(** The manifest of [fsRelease]. *)
Definition releaseManifest : BuildAssets :=
  {| Branch := "main";
     BuildID := "42";
     Version := "1.21.0-3";
     Arches :=
       [{| Env := {| GOOS := "linux"; GOARCH := "amd64" |};
           SHA256 := "abc123";
           URL := "https://example.test/go/go.1.21.0-3.linux-amd64.tar.gz" |}] |}.

(** A version marker that is a directory: it opens, and reading it fails. *)
Definition fsVersionIsDirectory : FS :=
  sampleFS [("src/VERSION", Unreadable (OSError "is a directory"))] [].

(** An empty version marker and no revision marker. *)
Definition fsEmptyVersion : FS :=
  sampleFS [("src/VERSION", Content "")] [].

(** No files at all. *)
Definition fsBare : FS := sampleFS [] [].

(** No marker files; two archives and a checksum file without its
    archive. *)
Definition fsMixed : FS :=
  sampleFS [("out/go.linux-amd64.tar.gz", Content "archive bytes");
            ("out/go.windows-amd64.zip", Content "archive bytes");
            ("out/go.darwin-arm64.tar.gz.sha256", Content "0a1b2c")]
           [("out", [mkDirEntry "go.darwin-arm64.tar.gz.sha256" false;
                     mkDirEntry "go.linux-amd64.tar.gz" false;
                     mkDirEntry "go.windows-amd64.zip" false;
                     mkDirEntry "logs" true])].

(** ** What an entry does, apart from the map *)

(** An archive whose OS/ARCH part has fewer than two parts. *)
Definition archiveTooShort (e : DirEntry) : bool :=
  isArchiveFile e
  && match archiveSuffixOf (Name e) with
     | Some suffix => List.length (osArchParts (Name e) suffix) <? 2
     | None => false
     end.

(** The entries one iteration faults on. *)
Definition entryFaults (fs : FS) (b : BuildResultsDirectoryInfo)
  (e : DirEntry) : bool :=
  checksumWithoutToken fs b e || archiveTooShort e.

(** The calls that reach a listing with an entry that faults. *)
Definition anyFault (fs : FS) (b : BuildResultsDirectoryInfo) : bool :=
  negb (String.eqb (ArtifactsDir b) "")
  && match dir fs (ArtifactsDir b) with
     | inr _ => false
     | inl entries => existsb (entryFaults fs b) entries
     end.

(** The entries the loop does something with. *)
Definition isArtifact (e : DirEntry) : bool :=
  isChecksumFile e || isArchiveFile e.

(** The key under which the loop files an entry. *)
Definition keyOf (e : DirEntry) : string :=
  if isChecksumFile e then strings.TrimSuffix (Name e) checksumSuffix
  else Name e.

(** What one iteration stores. *)
Inductive entryEffect : Type :=
| Ignore
| SetChecksum (key sum : string)
| SetArchive (name goOS goArch : string).

(** One iteration of the loop read without the map: how it ends, and what
    it stores when it goes on.  [visitEntry_effect] below shows that
    [visitEntry] is this, applied to the map by [applyEffect]. *)
Definition effectOf (fs : FS) (b : BuildResultsDirectoryInfo) (e : DirEntry)
  : flow entryEffect :=
  if IsDir e then Next Ignore
  else if strings.HasSuffix (Name e) checksumSuffix then
    match os_ReadFile fs (artifactPath b (Name e)) with
    | inr err =>
        ReturnErr
          (Errorf ("unable to read checksum file '"
                   +:+ artifactPath b (Name e) +:+ "'") err)
    | inl checksumLine =>
        match index (strings.Fields checksumLine) 0 with
        | Panics p => Fault p
        | Returns sum =>
            Next (SetChecksum (strings.TrimSuffix (Name e) checksumSuffix) sum)
        end
    end
  else
    match archiveSuffixOf (Name e) with
    | None => Next Ignore
    | Some suffix =>
        match index (osArchParts (Name e) suffix) 0 with
        | Panics p => Fault p
        | Returns goOS =>
            match index (osArchParts (Name e) suffix) 1 with
            | Panics p => Fault p
            | Returns goArch => Next (SetArchive (Name e) goOS goArch)
            end
        end
    end.

Definition applyEffect (b : BuildResultsDirectoryInfo) (eff : entryEffect)
  (archMap : gmap string Arch) : gmap string Arch :=
  match eff with
  | Ignore => archMap
  | SetChecksum key sum =>
      <[key := {| Env := Env (archAt archMap key);
                  SHA256 := sum;
                  URL := URL (archAt archMap key) |}]> archMap
  | SetArchive name goOS goArch =>
      <[name := {| Env := {| GOOS := goOS; GOARCH := goArch |};
                   SHA256 := SHA256 (archAt archMap name);
                   URL := DestinationURL b +:+ "/" +:+ name |}]> archMap
  end.

(** The urls of a list of entries that are not empty. *)
Definition urlsGiven (arches : list Arch) : list string :=
  List.filter (fun url => negb (String.eqb url "")) (List.map URL arches).

(** ** More sample inputs *)

(** A version marker of several lines, ended the way Windows ends them. *)
Definition fsLongVersion : FS :=
  sampleFS [("src/VERSION",
             Content ("go1.21.0" +:+ String "013" (String "010" "time 2023-08-04")))]
           [].

(** A checksum file that cannot be read, after an archive. *)
Definition fsLockedChecksum : FS :=
  sampleFS [("out/go.linux-amd64.tar.gz", Content "archive bytes");
            ("out/go.linux-amd64.tar.gz.sha256",
             Unopenable (OSError "permission denied"))]
           [("out", [mkDirEntry "go.linux-amd64.tar.gz" false;
                     mkDirEntry "go.linux-amd64.tar.gz.sha256" false])].

(** The listing of [fsMixed], and its files alone. *)
Definition mixedListing : list DirEntry :=
  [mkDirEntry "go.darwin-arm64.tar.gz.sha256" false;
   mkDirEntry "go.linux-amd64.tar.gz" false;
   mkDirEntry "go.windows-amd64.zip" false;
   mkDirEntry "logs" true].

Definition mixedFiles : list DirEntry :=
  [mkDirEntry "go.darwin-arm64.tar.gz.sha256" false;
   mkDirEntry "go.linux-amd64.tar.gz" false;
   mkDirEntry "go.windows-amd64.zip" false].

(** The manifest of [fsMixed]. *)
Definition mixedManifest : BuildAssets :=
  {| Branch := "main";
     BuildID := "42";
     Version := "main-1";
     Arches :=
       [{| Env := {| GOOS := ""; GOARCH := "" |};
           SHA256 := "0a1b2c";
           URL := "" |};
        {| Env := {| GOOS := "linux"; GOARCH := "amd64" |};
           SHA256 := "";
           URL := "https://example.test/go/go.linux-amd64.tar.gz" |};
        {| Env := {| GOOS := "windows"; GOARCH := "amd64" |};
           SHA256 := "";
           URL := "https://example.test/go/go.windows-amd64.zip" |}] |}.

(** The files of [fsMixed] with archives that cannot be opened. *)
Definition mixedLockedFiles (path : string) : fileState :=
  if String.eqb path "out/go.linux-amd64.tar.gz"
     || String.eqb path "out/go.windows-amd64.zip"
  then Unopenable (OSError "permission denied")
  else file fsMixed path.

(** Two archives, each with its checksum file. *)
Definition fsBalanced : FS :=
  sampleFS [("out/go.linux-amd64.tar.gz", Content "archive bytes");
            ("out/go.linux-amd64.tar.gz.sha256", Content "aaaa  go.linux-amd64.tar.gz");
            ("out/go.windows-amd64.zip", Content "archive bytes");
            ("out/go.windows-amd64.zip.sha256", Content "bbbb  go.windows-amd64.zip")]
           [("out", [mkDirEntry "go.linux-amd64.tar.gz" false;
                     mkDirEntry "go.linux-amd64.tar.gz.sha256" false;
                     mkDirEntry "go.windows-amd64.zip" false;
                     mkDirEntry "go.windows-amd64.zip.sha256" false])].

(** * Facts about the string functions *)

Section StringFacts.

Implicit Types s t p r : string.

Lemma app_cons c s t : String c s +:+ t = String c (s +:+ t).
Proof. reflexivity. Qed.

Lemma app_empty_l s : "" +:+ s = s.
Proof. reflexivity. Qed.

Lemma length_app s t :
  String.length (s +:+ t) = String.length s + String.length t.
Proof. induction s as [|c s IH]; simpl; [reflexivity | now rewrite IH]. Qed.

Lemma substring_zero_app s t :
  String.substring 0 (String.length s) (s +:+ t) = s.
Proof.
  induction s as [|c s IH]; simpl.
  - now destruct t.
  - now rewrite IH.
Qed.

Lemma substring_skip_app s t n m :
  String.substring (String.length s + n) m (s +:+ t) = String.substring n m t.
Proof. induction s as [|c s IH]; simpl; [reflexivity | exact IH]. Qed.

Lemma substring_whole s : String.substring 0 (String.length s) s = s.
Proof. induction s as [|c s IH]; simpl; [reflexivity | now rewrite IH]. Qed.

Lemma substring_halves s n :
  n <= String.length s ->
  String.substring 0 n s
    +:+ String.substring n (String.length s - n) s = s.
Proof.
  revert n; induction s as [|c s IH]; intros [|n] Hn; simpl in *;
    try reflexivity; try lia.
  - now rewrite app_empty_l, substring_whole.
  - rewrite app_cons, IH by lia. reflexivity.
Qed.

Lemma app_assoc_string s t r : (s +:+ t) +:+ r = s +:+ t +:+ r.
Proof.
  induction s as [|c s IH]; [reflexivity | now rewrite !app_cons, IH].
Qed.

(** [HasPrefix] and [HasSuffix] say what their names say. *)
Lemma HasPrefix_app p r : strings.HasPrefix (p +:+ r) p = true.
Proof.
  unfold strings.HasPrefix, strings.slice.
  rewrite length_app, Nat.sub_0_r, substring_zero_app, String.eqb_refl.
  rewrite andb_true_r. apply Nat.leb_le. lia.
Qed.

Lemma HasPrefix_inv s p :
  strings.HasPrefix s p = true -> exists r, s = p +:+ r.
Proof.
  unfold strings.HasPrefix, strings.slice.
  rewrite andb_true_iff, Nat.leb_le, String.eqb_eq, Nat.sub_0_r.
  intros [Hlen Heq].
  exists (String.substring (String.length p)
            (String.length s - String.length p) s).
  rewrite <- Heq at 1. symmetry. now apply substring_halves.
Qed.

Lemma HasSuffix_app r t : strings.HasSuffix (r +:+ t) t = true.
Proof.
  unfold strings.HasSuffix, strings.slice.
  rewrite length_app.
  replace (String.length r + String.length t - String.length t)
    with (String.length r + 0) by lia.
  rewrite substring_skip_app.
  replace (String.length r + String.length t - (String.length r + 0))
    with (String.length t) by lia.
  rewrite substring_whole, String.eqb_refl, andb_true_r.
  apply Nat.leb_le. lia.
Qed.

Lemma HasSuffix_inv s t :
  strings.HasSuffix s t = true -> exists r, s = r +:+ t.
Proof.
  unfold strings.HasSuffix, strings.slice.
  rewrite andb_true_iff, Nat.leb_le, String.eqb_eq.
  intros [Hlen Heq].
  exists (String.substring 0 (String.length s - String.length t) s).
  rewrite <- Heq at 2. symmetry.
  replace (String.length s - (String.length s - String.length t))
    with (String.length s - (String.length s - String.length t)) by lia.
  apply substring_halves. lia.
Qed.

Lemma TrimSuffix_app r t : strings.TrimSuffix (r +:+ t) t = r.
Proof.
  unfold strings.TrimSuffix, strings.slice.
  rewrite HasSuffix_app, length_app.
  replace (String.length r + String.length t - String.length t - 0)
    with (String.length r) by lia.
  apply substring_zero_app.
Qed.

Lemma TrimPrefix_app p r : strings.TrimPrefix (p +:+ r) p = r.
Proof.
  unfold strings.TrimPrefix, strings.slice.
  rewrite HasPrefix_app, length_app.
  replace (String.length p + String.length r - String.length p)
    with (String.length r) by lia.
  rewrite <- (Nat.add_0_r (String.length p)), substring_skip_app.
  apply substring_whole.
Qed.

End StringFacts.

(** * The branch mapper *)

(** C6. [GetDockerRepoTargetBranch] is a total function of the branch alone:
    "main" and every branch that starts with "release-branch." map to
    "microsoft/main", every branch that starts with "dev/official/" maps to
    itself, and every other branch maps to the empty string. *)
Theorem target_branch_cases :
  (forall b, Branch b = "main" -> GetDockerRepoTargetBranch b = "microsoft/main")
  /\ (forall b rest, Branch b = "release-branch." +:+ rest ->
        GetDockerRepoTargetBranch b = "microsoft/main")
  /\ (forall b rest, Branch b = "dev/official/" +:+ rest ->
        GetDockerRepoTargetBranch b = Branch b)
  /\ (forall b, Branch b <> "main" ->
        (forall rest, Branch b <> "release-branch." +:+ rest) ->
        (forall rest, Branch b <> "dev/official/" +:+ rest) ->
        GetDockerRepoTargetBranch b = "")
  /\ (forall b b', Branch b = Branch b' ->
        GetDockerRepoTargetBranch b = GetDockerRepoTargetBranch b').
Proof.
  unfold GetDockerRepoTargetBranch. split; [|split; [|split; [|split]]].
  - intros b ->. reflexivity.
  - intros b rest ->. rewrite HasPrefix_app. now rewrite orb_true_r.
  - intros b rest ->. rewrite HasPrefix_app.
    destruct (String.eqb_spec ("dev/official/" +:+ rest) "main") as [He|_].
    { rewrite !app_cons in He. discriminate He. }
    destruct (strings.HasPrefix _ "release-branch.") eqn:H1; [|reflexivity].
    apply HasPrefix_inv in H1 as [r Hr].
    rewrite !app_cons in Hr. discriminate Hr.
  - intros b Hmain Hrel Hdev.
    destruct (String.eqb_spec (Branch b) "main") as [|_]; [contradiction|].
    destruct (strings.HasPrefix (Branch b) "release-branch.") eqn:H1.
    { apply HasPrefix_inv in H1 as [r Hr]. now apply Hrel in Hr. }
    destruct (strings.HasPrefix (Branch b) "dev/official/") eqn:H2.
    { apply HasPrefix_inv in H2 as [r Hr]. now apply Hdev in Hr. }
    reflexivity.
  - intros b b' ->. reflexivity.
Qed.

Lemma target_branch_cases_examples :
  let on branch := GetDockerRepoTargetBranch (mkBuildAssets branch "" "" []) in
  on "main" = "microsoft/main"
  /\ on "release-branch.1.20" = "microsoft/main"
  /\ on "dev/official/foo" = "dev/official/foo"
  /\ on "feature/x" = "".
Proof.
  destruct target_branch_cases as (Hmain & Hrel & Hdev & Hother & _).
  cbv zeta. split; [|split; [|split]].
  - now apply Hmain.
  - now apply (Hrel _ "1.20").
  - exact (Hdev (mkBuildAssets "dev/official/foo" "" "" []) "foo" eq_refl).
  - apply Hother; simpl; intros; rewrite ?app_cons; discriminate.
Defined.

(** * Sorting by url *)

Section SortingFacts.

Context {A : Type} (less : A -> A -> bool).

Lemma insertSorted_perm x l : Permutation (insertSorted less x l) (x :: l).
Proof.
  induction l as [|y l IH]; simpl; [reflexivity|].
  destruct (less x y); [reflexivity|].
  rewrite IH. apply perm_swap.
Qed.

Lemma fold_insertSorted_perm l acc :
  Permutation
    (fold_left (fun sorted x => insertSorted less x sorted) l acc)
    (acc ++ l).
Proof.
  revert acc; induction l as [|x l IH]; intros acc; simpl.
  - now rewrite app_nil_r.
  - rewrite IH, insertSorted_perm.
    change (x :: acc) with ([x] ++ acc).
    rewrite (Permutation_app_comm [x] acc), <- app_assoc. reflexivity.
Qed.

Lemma insertionSort_perm l : Permutation (insertionSort less l) l.
Proof. unfold insertionSort. now rewrite fold_insertSorted_perm. Qed.

Hypothesis less_swo : strictWeak less.

Lemma insertSorted_sorted x l :
  sortedBy less l -> sortedBy less (insertSorted less x l).
Proof.
  destruct less_swo as [Hasym Htrans].
  unfold sortedBy.
  induction l as [|y l IH]; intros Hl; simpl.
  - repeat constructor.
  - apply StronglySorted_inv in Hl as [Hl Hy].
    destruct (less x y) eqn:Hxy.
    + constructor; [now constructor|].
      constructor; [now apply Hasym|].
      rewrite Forall_forall in Hy |- *. intros z Hz.
      apply (Htrans _ y); [now apply Hasym | now apply Hy].
    + constructor; [now apply IH|].
      rewrite insertSorted_perm. now constructor.
Qed.

Lemma fold_insertSorted_sorted l acc :
  sortedBy less acc ->
  sortedBy less (fold_left (fun sorted x => insertSorted less x sorted) l acc).
Proof.
  revert acc; induction l as [|x l IH]; intros acc Hacc; simpl; [assumption|].
  apply IH. now apply insertSorted_sorted.
Qed.

Lemma insertionSort_sorted l : sortedBy less (insertionSort less l).
Proof. apply fold_insertSorted_sorted. constructor. Qed.

End SortingFacts.

Lemma ltb_false_leb s t : String.ltb s t = false <-> String.leb t s = true.
Proof.
  unfold String.ltb, String.leb. rewrite (String.compare_antisym s t).
  destruct (String.compare t s); simpl; split; congruence.
Qed.

Lemma leb_trans s t u :
  String.leb s t = true -> String.leb t u = true -> String.leb s u = true.
Proof.
  intros H1 H2.
  assert (String.le s u) as H.
  { transitivity t; unfold String.le; [now rewrite H1 | now rewrite H2]. }
  unfold String.le in H. now destruct (String.leb s u).
Qed.

Lemma lessURL_strictWeak : strictWeak lessURL.
Proof.
  unfold lessURL; split.
  - intros x y Hxy. apply ltb_false_leb.
    unfold String.ltb in Hxy. unfold String.leb.
    now destruct (String.compare (URL x) (URL y)).
  - intros x y z Hyx Hzy. rewrite ltb_false_leb in *.
    now apply (leb_trans _ (URL y)).
Qed.

Lemma forwardRuntime_lawful : lawful forwardRuntime.
Proof.
  split; [|split]; simpl.
  - reflexivity.
  - intros less l. apply insertionSort_perm.
  - intros less l Hless. now apply insertionSort_sorted.
Qed.

Lemma backwardRuntime_lawful : lawful backwardRuntime.
Proof.
  split; [|split]; simpl.
  - intros m. symmetry. apply Permutation_rev.
  - intros less l. apply insertionSort_perm.
  - intros less l Hless. now apply insertionSort_sorted.
Qed.

(** A list in the order [lessURL] asks for has its urls ascending. *)
Lemma sortedBy_ascending arches :
  sortedBy lessURL arches -> ascendingURLs arches.
Proof.
  unfold sortedBy, ascendingURLs.
  induction arches as [|a arches IH]; intros Hs i j x y Hij Hi Hj.
  - now rewrite lookup_nil in Hi.
  - apply StronglySorted_inv in Hs as [Hs Ha].
    destruct j as [|j]; [lia|]. simpl in Hj.
    destruct i as [|i]; simpl in Hi.
    + injection Hi as <-.
      rewrite Forall_forall in Ha.
      apply ltb_false_leb. apply (Ha y).
      apply list_elem_of_lookup. now exists j.
    + apply (IH Hs i j); [lia | assumption..].
Qed.

(** * How a call ends *)

Lemma getVersion_absent fs path defaultVersion :
  file fs path = Absent ->
  getVersion fs path defaultVersion = (defaultVersion, None).
Proof. unfold getVersion. now intros ->. Qed.

Lemma getVersion_content fs path defaultVersion data text :
  file fs path = Content data ->
  bufio.firstLine data = inl text ->
  getVersion fs path defaultVersion = (text, None).
Proof. unfold getVersion. now intros -> ->. Qed.

(** [getVersion] returns an error exactly for an unreadable marker, and
    then returns the empty string with it. *)
Lemma getVersion_readable fs path defaultVersion :
  markerUnreadable fs path = false ->
  exists text, getVersion fs path defaultVersion = (text, None).
Proof.
  unfold markerUnreadable, getVersion.
  destruct (file fs path) as [| | |data]; try discriminate; eauto.
  destruct (bufio.firstLine data); [eauto | discriminate].
Qed.

Lemma getVersion_unreadable fs path defaultVersion :
  markerUnreadable fs path = true ->
  exists err, getVersion fs path defaultVersion = ("", Some err).
Proof.
  unfold markerUnreadable, getVersion.
  destruct (file fs path) as [| | |data]; try discriminate; eauto.
  destruct (bufio.firstLine data); [discriminate | eauto].
Qed.

(** The one way [CreateSummary] returns a manifest. *)
Lemma CreateSummary_manifest_inv rt fs b m err :
  CreateSummary rt fs b = Returns (Some m, err) ->
  exists goVersion goRevision archMap,
    getVersion fs (versionPath b) "main" = (goVersion, None)
    /\ getVersion fs (revisionPath b) "1" = (goRevision, None)
    /\ scanArtifacts fs b = Next archMap
    /\ err = None
    /\ m = {| Branch := InfoBranch b;
              BuildID := InfoBuildID b;
              Version := strings.TrimPrefix goVersion "go" +:+ "-" +:+ goRevision;
              Arches := sortSlice rt lessURL (mapRange rt archMap) |}.
Proof.
  unfold CreateSummary, versionPath, revisionPath.
  destruct (getVersion fs _ "main") as [goVersion [e|]]; [discriminate|].
  destruct (getVersion fs _ "1") as [goRevision [e|]]; [discriminate|].
  destruct (scanArtifacts fs b) as [archMap|e|p]; try discriminate.
  intros [= <- <-]. now exists goVersion, goRevision, archMap.
Qed.

Lemma CreateSummary_manifest rt fs b goVersion goRevision archMap :
  getVersion fs (versionPath b) "main" = (goVersion, None) ->
  getVersion fs (revisionPath b) "1" = (goRevision, None) ->
  scanArtifacts fs b = Next archMap ->
  CreateSummary rt fs b =
    Returns (Some {| Branch := InfoBranch b;
                     BuildID := InfoBuildID b;
                     Version :=
                       strings.TrimPrefix goVersion "go" +:+ "-" +:+ goRevision;
                     Arches := sortSlice rt lessURL (mapRange rt archMap) |},
             None).
Proof.
  unfold CreateSummary, versionPath, revisionPath. now intros -> -> ->.
Qed.

Lemma lawful_no_entries rt :
  lawful rt -> sortSlice rt lessURL (mapRange rt ∅) = [].
Proof.
  intros (Hrange & Hperm & _).
  apply Permutation_nil. symmetry.
  rewrite Hperm, Hrange, map_to_list_empty. reflexivity.
Qed.

Lemma leb_empty s : String.leb s "" = true -> s = "".
Proof. destruct s; [reflexivity | discriminate]. Qed.

(** * Version resolution *)

(** C5. When both marker files are absent the version of the manifest is
    "main-1"; when the version marker holds "go1.21.0" and the revision
    marker holds "3" it is "1.21.0-3"; and in general a leading "go" of the
    version is dropped and the revision follows it after a dash. *)
Theorem version_resolution rt fs b m err :
  CreateSummary rt fs b = Returns (Some m, err) ->
  (file fs (versionPath b) = Absent ->
   file fs (revisionPath b) = Absent ->
   Version m = "main-1")
  /\ (file fs (versionPath b) = Content "go1.21.0" ->
      file fs (revisionPath b) = Content "3" ->
      Version m = "1.21.0-3")
  /\ (forall number revision,
        getVersion fs (versionPath b) "main" = ("go" +:+ number, None) ->
        getVersion fs (revisionPath b) "1" = (revision, None) ->
        Version m = number +:+ "-" +:+ revision).
Proof.
  intros Hrun.
  apply CreateSummary_manifest_inv in Hrun
    as (goVersion & goRevision & archMap & Hv & Hr & _ & _ & ->).
  simpl. split; [|split].
  - intros Hfv Hfr.
    rewrite (getVersion_absent _ _ _ Hfv) in Hv.
    rewrite (getVersion_absent _ _ _ Hfr) in Hr.
    injection Hv as <-. injection Hr as <-. reflexivity.
  - intros Hfv Hfr.
    rewrite (getVersion_content _ _ _ _ "go1.21.0" Hfv) in Hv
      by (vm_compute; reflexivity).
    rewrite (getVersion_content _ _ _ _ "3" Hfr) in Hr
      by (vm_compute; reflexivity).
    injection Hv as <-. injection Hr as <-. reflexivity.
  - intros number revision Hnumber Hrevision.
    rewrite Hnumber in Hv. rewrite Hrevision in Hr.
    injection Hv as <-. injection Hr as <-.
    now rewrite TrimPrefix_app.
Qed.

Lemma version_resolution_examples :
  (exists m, CreateSummary forwardRuntime fsBare (sampleInfo "")
             = Returns (Some m, None) /\ Version m = "main-1")
  /\ (exists m, CreateSummary forwardRuntime fsRelease (sampleInfo "out")
                = Returns (Some m, None) /\ Version m = "1.21.0-3").
Proof.
  split; eexists; (split; [vm_compute; reflexivity|]).
  - refine (proj1 (version_resolution forwardRuntime fsBare (sampleInfo "")
                     _ None _) _ _);
      vm_compute; reflexivity.
  - refine (proj1 (proj2 (version_resolution forwardRuntime fsRelease
                            (sampleInfo "out") _ None _)) _ _);
      vm_compute; reflexivity.
Defined.

(** C10. A marker file that is there and holds no line, or an empty line,
    resolves to the empty string whatever the default is; the default is
    the result only of a file that does not exist; so an empty version
    marker with no revision marker gives the version "-1". *)
Theorem empty_marker_is_not_defaulted :
  (forall fs path defaultVersion data,
     file fs path = Content data ->
     data = "" \/ (exists rest, data = String "010" rest) ->
     getVersion fs path defaultVersion = ("", None))
  /\ (forall fs path defaultVersion,
        file fs path = Absent ->
        getVersion fs path defaultVersion = (defaultVersion, None))
  /\ (forall fs path default1 default2,
        file fs path <> Absent ->
        getVersion fs path default1 = getVersion fs path default2)
  /\ (forall rt fs b m err,
        CreateSummary rt fs b = Returns (Some m, err) ->
        file fs (versionPath b) = Content "" ->
        file fs (revisionPath b) = Absent ->
        Version m = "-1").
Proof.
  split; [|split; [|split]].
  - intros fs path d data Hfile [-> | [rest ->]];
      now apply (getVersion_content _ _ _ _ _ Hfile).
  - intros. now apply getVersion_absent.
  - intros fs path d1 d2 Hfile. unfold getVersion.
    now destruct (file fs path).
  - intros rt fs b m err Hrun Hfv Hfr.
    apply CreateSummary_manifest_inv in Hrun
      as (goVersion & goRevision & archMap & Hv & Hr & _ & _ & ->).
    rewrite (getVersion_content _ _ _ _ "" Hfv) in Hv by reflexivity.
    rewrite (getVersion_absent _ _ _ Hfr) in Hr.
    injection Hv as <-. injection Hr as <-. reflexivity.
Qed.

Lemma empty_marker_is_not_defaulted_example :
  getVersion fsEmptyVersion "src/VERSION" "main" = ("", None)
  /\ exists m, CreateSummary forwardRuntime fsEmptyVersion (sampleInfo "")
               = Returns (Some m, None) /\ Version m = "-1".
Proof.
  destruct empty_marker_is_not_defaulted as (Hempty & _ & _ & Hrun).
  split.
  - apply (Hempty fsEmptyVersion "src/VERSION" "main" "");
      [reflexivity | now left].
  - eexists. split; [vm_compute; reflexivity|].
    eapply (Hrun forwardRuntime fsEmptyVersion (sampleInfo ""));
      vm_compute; reflexivity.
Defined.

(** * An empty artifacts directory path *)

(** C9, as the spec words it, fails: with an empty [ArtifactsDir] a
    version marker that opens and cannot be read makes the call return an
    error and no manifest, so an empty [ArtifactsDir] alone does not give a
    manifest without error. *)
Lemma empty_artifacts_dir_can_fail :
  ArtifactsDir (sampleInfo "") = ""
  /\ CreateSummary forwardRuntime fsVersionIsDirectory (sampleInfo "")
     = Returns (None,
                Some (Errorf "unable to read VERSION file 'src/VERSION'"
                        (OSError "is a directory")))
  /\ ~ (forall rt fs b,
          lawful rt -> ArtifactsDir b = "" ->
          exists m, CreateSummary rt fs b = Returns (Some m, None)
                    /\ Arches m = []).
Proof.
  split; [reflexivity|]. split; [vm_compute; reflexivity|].
  intros H.
  destruct (H forwardRuntime fsVersionIsDirectory (sampleInfo "")
              forwardRuntime_lawful eq_refl) as (m & Hrun & _).
  vm_compute in Hrun. discriminate Hrun.
Qed.

(** C9, amended. With an empty [ArtifactsDir] and marker files that are
    absent or readable, the call does not look at any directory and returns,
    without error, a manifest with no entries whose branch, build id and
    version are filled in. *)
Theorem empty_artifacts_dir rt fs b :
  lawful rt ->
  ArtifactsDir b = "" ->
  markerUnreadable fs (versionPath b) = false ->
  markerUnreadable fs (revisionPath b) = false ->
  (exists m,
     CreateSummary rt fs b = Returns (Some m, None)
     /\ Arches m = []
     /\ Branch m = InfoBranch b
     /\ BuildID m = InfoBuildID b
     /\ Version m =
          strings.TrimPrefix (fst (getVersion fs (versionPath b) "main")) "go"
          +:+ "-" +:+ fst (getVersion fs (revisionPath b) "1"))
  /\ (forall dirs,
        CreateSummary rt {| file := file fs; dir := dirs |} b
        = CreateSummary rt fs b).
Proof.
  intros Hrt Hdir Hv Hr. split.
  - destruct (getVersion_readable _ _ "main" Hv) as [goVersion HgetV].
    destruct (getVersion_readable _ _ "1" Hr) as [goRevision HgetR].
    assert (scanArtifacts fs b = Next ∅) as Hscan.
    { unfold scanArtifacts. now rewrite Hdir. }
    eexists. split; [exact (CreateSummary_manifest rt _ _ _ _ _ HgetV HgetR Hscan)|].
    rewrite HgetV, HgetR. simpl.
    split; [now apply lawful_no_entries | tauto].
  - intros dirs. unfold CreateSummary, scanArtifacts, getVersion. simpl.
    now rewrite Hdir.
Qed.

Lemma empty_artifacts_dir_example :
  exists m,
    CreateSummary backwardRuntime fsRelease (sampleInfo "")
    = Returns (Some m, None)
    /\ Arches m = [] /\ Branch m = "main" /\ BuildID m = "42"
    /\ Version m = "1.21.0-3".
Proof.
  destruct (empty_artifacts_dir backwardRuntime fsRelease (sampleInfo ""))
    as [(m & Hrun & Harches & Hbranch & Hid & Hversion) _].
  - apply backwardRuntime_lawful.
  - reflexivity.
  - vm_compute; reflexivity.
  - vm_compute; reflexivity.
  - exists m. now repeat split.
Defined.

(** * The order of the entries *)

(** C7. In every manifest that is returned the entries are in ascending
    order of their urls, compared byte by byte, and so an entry with an
    empty url never comes after one with a url. *)
Theorem arches_sorted_by_url rt fs b m err :
  lawful rt ->
  CreateSummary rt fs b = Returns (Some m, err) ->
  ascendingURLs (Arches m)
  /\ (forall i j x y,
        i < j -> Arches m !! i = Some x -> Arches m !! j = Some y ->
        URL y = "" -> URL x = "").
Proof.
  intros (_ & _ & Hsorted) Hrun.
  apply CreateSummary_manifest_inv in Hrun
    as (goVersion & goRevision & archMap & _ & _ & _ & _ & ->).
  simpl.
  assert (ascendingURLs (sortSlice rt lessURL (mapRange rt archMap))) as Hasc.
  { apply sortedBy_ascending, Hsorted, lessURL_strictWeak. }
  split; [exact Hasc|].
  intros i j x y Hij Hi Hj Hy.
  apply leb_empty. rewrite <- Hy. now apply (Hasc i j).
Qed.

Lemma arches_sorted_by_url_example :
  exists m,
    CreateSummary backwardRuntime fsMixed (sampleInfo "out")
    = Returns (Some m, None)
    /\ List.map URL (Arches m)
       = [""; "https://example.test/go/go.linux-amd64.tar.gz";
          "https://example.test/go/go.windows-amd64.zip"]
    /\ ascendingURLs (Arches m).
Proof.
  eexists. split; [vm_compute; reflexivity|]. split; [reflexivity|].
  eapply (arches_sorted_by_url backwardRuntime fsMixed (sampleInfo "out")).
  - apply backwardRuntime_lawful.
  - vm_compute; reflexivity.
Defined.

(** * The loop over the directory *)

Lemma visitEntries_app fs b before after archMap :
  visitEntries fs b (before ++ after) archMap =
  match visitEntries fs b before archMap with
  | Next archMap' => visitEntries fs b after archMap'
  | stop => stop
  end.
Proof.
  revert archMap; induction before as [|e before IH]; intros archMap; simpl.
  - reflexivity.
  - destruct (visitEntry fs b archMap e); [apply IH | reflexivity..].
Qed.

Lemma isChecksumFile_inv e :
  isChecksumFile e = true ->
  IsDir e = false /\ strings.HasSuffix (Name e) checksumSuffix = true.
Proof.
  unfold isChecksumFile. rewrite andb_true_iff, negb_true_iff. tauto.
Qed.

Lemma isArchiveFile_inv e :
  isArchiveFile e = true ->
  IsDir e = false
  /\ strings.HasSuffix (Name e) checksumSuffix = false
  /\ exists suffix, archiveSuffixOf (Name e) = Some suffix.
Proof.
  unfold isArchiveFile. rewrite !andb_true_iff, !negb_true_iff.
  intros [[Hfile Hsum] Harchive]. repeat split; try assumption.
  destruct (archiveSuffixOf (Name e)); [eauto | discriminate].
Qed.

(** The loop over the suffixes runs the body for [archiveSuffixOf], if
    any. *)
Lemma archiveLoop_found b name suffixes suffix archMap :
  List.find (fun suffix => strings.HasSuffix name suffix) suffixes
    = Some suffix ->
  archiveLoop b name suffixes archMap = archiveFile b name suffix archMap.
Proof.
  induction suffixes as [|s suffixes IH]; simpl; [discriminate|].
  destruct (strings.HasSuffix name s); [now intros [= ->] | exact IH].
Qed.

Lemma archiveLoop_none b name suffixes archMap :
  List.find (fun suffix => strings.HasSuffix name suffix) suffixes = None ->
  archiveLoop b name suffixes archMap = Next archMap.
Proof.
  induction suffixes as [|s suffixes IH]; simpl; [reflexivity|].
  destruct (strings.HasSuffix name s); [discriminate | exact IH].
Qed.

Lemma visitEntry_checksumWithoutToken fs b archMap e :
  checksumWithoutToken fs b e = true ->
  visitEntry fs b archMap e = Fault (IndexOutOfRange 0 0).
Proof.
  unfold checksumWithoutToken, artifactPath. rewrite andb_true_iff.
  intros [[Hfile Hsuffix]%isChecksumFile_inv Hread].
  unfold visitEntry, checksumFile. rewrite Hfile, Hsuffix.
  destruct (getOrCreateArch archMap _) as [archMap' a].
  destruct (os_ReadFile fs _) as [data|]; [|discriminate].
  now destruct (strings.Fields data).
Qed.

Lemma visitEntry_archiveMisnamed fs b archMap e :
  archiveMisnamed e = true ->
  visitEntry fs b archMap e = Fault (IndexOutOfRange 1 1)
  \/ exists goOS goArch extra more archMap',
       archiveSuffixOf (Name e) <> None
       /\ (forall suffix, archiveSuffixOf (Name e) = Some suffix ->
           osArchParts (Name e) suffix = goOS :: goArch :: extra :: more)
       /\ visitEntry fs b archMap e = Next archMap'
       /\ exists a, archMap' !! Name e = Some a
                    /\ Env a = {| GOOS := goOS; GOARCH := goArch |}.
Proof.
  unfold archiveMisnamed. rewrite andb_true_iff.
  intros [(Hfile & Hsum & suffix & Hsuffix)%isArchiveFile_inv Hparts].
  rewrite Hsuffix, negb_true_iff, Nat.eqb_neq in Hparts.
  unfold visitEntry. rewrite Hfile, Hsum.
  rewrite (archiveLoop_found _ _ _ suffix) by exact Hsuffix.
  unfold archiveFile, index.
  destruct (osArchParts (Name e) suffix) as [|goOS [|goArch [|extra more]]] eqn:Hsplit;
    simpl in *.
  - exfalso. unfold osArchParts in Hsplit.
    now destruct (strings.slice _ _ _) as [|c s]; simpl in Hsplit;
      [|destruct (Ascii.eqb c "-"); [|destruct (strings.Split s "-")]].
  - now left.
  - lia.
  - right. exists goOS, goArch, extra, more.
    destruct (getOrCreateArch archMap (Name e)) as [archMap' a].
    eexists. split; [congruence|]. split; [congruence|].
    split; [reflexivity|].
    eexists. split; [apply lookup_insert_eq | reflexivity].
Qed.

(** * Malformed inputs *)

(** C1, on the code. A checksum file that holds no token is not reported
    as an error: the call faults on [strings.Fields(...)[0]] as soon as the
    loop reaches the file. *)
Theorem checksum_without_token_faults rt fs b before e after archMap :
  markerUnreadable fs (versionPath b) = false ->
  markerUnreadable fs (revisionPath b) = false ->
  ArtifactsDir b <> "" ->
  dir fs (ArtifactsDir b) = inl (before ++ e :: after) ->
  visitEntries fs b before ∅ = Next archMap ->
  checksumWithoutToken fs b e = true ->
  CreateSummary rt fs b = Panics (IndexOutOfRange 0 0).
Proof.
  intros Hv Hr Hdir Hlist Hbefore He.
  destruct (getVersion_readable _ _ "main" Hv) as [goVersion HgetV].
  destruct (getVersion_readable _ _ "1" Hr) as [goRevision HgetR].
  unfold CreateSummary. fold (versionPath b) (revisionPath b).
  rewrite HgetV, HgetR.
  assert (scanArtifacts fs b = Fault (IndexOutOfRange 0 0)) as ->; [|reflexivity].
  unfold scanArtifacts.
  apply String.eqb_neq in Hdir. rewrite Hdir, Hlist.
  rewrite visitEntries_app, Hbefore. simpl.
  now rewrite (visitEntry_checksumWithoutToken _ _ _ _ He).
Qed.

Lemma checksum_without_token_faults_example :
  CreateSummary forwardRuntime fsEmptyChecksum (sampleInfo "out")
  = Panics (IndexOutOfRange 0 0).
Proof.
  apply (checksum_without_token_faults forwardRuntime fsEmptyChecksum
           (sampleInfo "out") []
           (mkDirEntry "go.linux-amd64.tar.gz.sha256" false) [] ∅);
    try (vm_compute; reflexivity).
  vm_compute; discriminate.
Defined.

(** C2, on the code. An archive whose OS/ARCH part does not split into
    exactly two is not reported as an error either: with a single part the
    call faults on [osArchParts[1]] as soon as the loop reaches the file,
    with three or more the first two are taken and the loop goes on. *)
Theorem misnamed_archive_faults_or_misparses fs b archMap e :
  archiveMisnamed e = true ->
  (forall err, visitEntry fs b archMap e <> ReturnErr err)
  /\ (forall suffix,
        archiveSuffixOf (Name e) = Some suffix ->
        List.length (osArchParts (Name e) suffix) < 2 ->
        forall rt before after archMap',
          markerUnreadable fs (versionPath b) = false ->
          markerUnreadable fs (revisionPath b) = false ->
          ArtifactsDir b <> "" ->
          dir fs (ArtifactsDir b) = inl (before ++ e :: after) ->
          visitEntries fs b before ∅ = Next archMap' ->
          CreateSummary rt fs b = Panics (IndexOutOfRange 1 1)).
Proof.
  intros He. split.
  - intros err.
    destruct (visitEntry_archiveMisnamed fs b archMap e He)
      as [-> | (? & ? & ? & ? & ? & _ & _ & -> & _)]; discriminate.
  - intros suffix Hsuffix Hshort rt before after archMap' Hv Hr Hdir Hlist Hbefore.
    destruct (getVersion_readable _ _ "main" Hv) as [goVersion HgetV].
    destruct (getVersion_readable _ _ "1" Hr) as [goRevision HgetR].
    unfold CreateSummary. fold (versionPath b) (revisionPath b).
    rewrite HgetV, HgetR.
    assert (scanArtifacts fs b = Fault (IndexOutOfRange 1 1)) as ->; [|reflexivity].
    unfold scanArtifacts.
    apply String.eqb_neq in Hdir. rewrite Hdir, Hlist.
    rewrite visitEntries_app, Hbefore. simpl.
    destruct (visitEntry_archiveMisnamed fs b archMap' e He)
      as [-> | (? & ? & ? & ? & ? & _ & Hlong & _)]; [reflexivity|].
    rewrite (Hlong suffix Hsuffix) in Hshort. simpl in Hshort. lia.
Qed.

Lemma misnamed_archive_faults_or_misparses_example :
  CreateSummary forwardRuntime fsMisnamedArchive (sampleInfo "out")
  = Panics (IndexOutOfRange 1 1)
  /\ exists m a,
       CreateSummary forwardRuntime fsDashedArch (sampleInfo "out")
       = Returns (Some m, None)
       /\ Arches m = [a]
       /\ Env a = {| GOOS := "linux"; GOARCH := "arm" |}.
Proof.
  split.
  - destruct (misnamed_archive_faults_or_misparses fsMisnamedArchive
                (sampleInfo "out") ∅ (mkDirEntry "go.tar.gz" false) eq_refl)
      as [_ Hfaults].
    apply (Hfaults ".tar.gz" eq_refl) with (before := []) (after := [])
                                           (archMap' := ∅);
      try (vm_compute; reflexivity).
    vm_compute; discriminate.
  - do 2 eexists. split; [vm_compute; reflexivity|]. split; reflexivity.
Defined.

(** * Running twice *)

(** Two calls on the same inputs agree when no two entries of the map
    share a url: the sorted order is then the only one there is. *)
Lemma runs_agree_on_distinct_urls rt1 rt2 fs b :
  lawful rt1 -> lawful rt2 ->
  (forall archMap x y,
     scanArtifacts fs b = Next archMap ->
     x ∈ List.map snd (map_to_list archMap) ->
     y ∈ List.map snd (map_to_list archMap) ->
     URL x = URL y -> x = y) ->
  CreateSummary rt1 fs b = CreateSummary rt2 fs b.
Proof.
  intros (Hrange1 & Hperm1 & Hsorted1) (Hrange2 & Hperm2 & Hsorted2) Hdistinct.
  unfold CreateSummary.
  destruct (getVersion fs _ "main") as [goVersion [e|]]; [reflexivity|].
  destruct (getVersion fs _ "1") as [goRevision [e|]]; [reflexivity|].
  destruct (scanArtifacts fs b) as [archMap| |] eqn:Hscan; try reflexivity.
  do 4 f_equal.
  assert (Permutation (sortSlice rt1 lessURL (mapRange rt1 archMap))
                      (List.map snd (map_to_list archMap))) as Hp1
    by now rewrite Hperm1.
  assert (Permutation (sortSlice rt2 lessURL (mapRange rt2 archMap))
                      (List.map snd (map_to_list archMap))) as Hp2
    by now rewrite Hperm2.
  apply (StronglySorted_unique_strong (fun x y => lessURL y x = false)).
  - intros x y Hx Hy Hxy Hyx.
    apply (Hdistinct archMap); [reflexivity | now rewrite <- Hp1 | now rewrite <- Hp2 |].
    unfold lessURL in Hxy, Hyx. rewrite ltb_false_leb in Hxy, Hyx.
    now apply String.leb_antisym.
  - apply Hsorted1, lessURL_strictWeak.
  - apply Hsorted2, lessURL_strictWeak.
  - now rewrite Hp1, Hp2.
Qed.

(** C3, on the code. Two calls on the same inputs can return manifests
    that differ: two checksum files without their archives give two entries
    with the same, empty, url, which stay in the order in which the map is
    ranged over, and that order is not fixed. *)
Theorem repeated_runs_can_differ :
  lawful forwardRuntime /\ lawful backwardRuntime
  /\ exists first second,
       CreateSummary forwardRuntime fsTwoChecksums (sampleInfo "out")
       = Returns (Some first, None)
       /\ CreateSummary backwardRuntime fsTwoChecksums (sampleInfo "out")
          = Returns (Some second, None)
       /\ List.map URL (Arches first) = [""; ""]
       /\ List.map SHA256 (Arches first) = ["1111"; "2222"]
       /\ List.map SHA256 (Arches second) = ["2222"; "1111"]
       /\ first <> second.
Proof.
  split; [apply forwardRuntime_lawful|].
  split; [apply backwardRuntime_lawful|].
  do 2 eexists.
  split; [vm_compute; reflexivity|].
  split; [vm_compute; reflexivity|].
  repeat (split; [reflexivity|]).
  discriminate.
Qed.

(** * Hard errors *)

Lemma marker_error_aborts rt fs b :
  markerUnreadable fs (versionPath b) = true
  \/ markerUnreadable fs (revisionPath b) = true ->
  exists err, CreateSummary rt fs b = Returns (None, Some err).
Proof.
  unfold CreateSummary. fold (versionPath b) (revisionPath b).
  intros [Hv | Hr].
  - destruct (getVersion_unreadable _ _ "main" Hv) as [err ->]. eauto.
  - destruct (getVersion fs (versionPath b) "main") as [goVersion [e|]]; [eauto|].
    destruct (getVersion_unreadable _ _ "1" Hr) as [err ->]. eauto.
Qed.

Lemma directory_error_aborts rt fs b err :
  ArtifactsDir b <> "" ->
  dir fs (ArtifactsDir b) = inr err ->
  exists err', CreateSummary rt fs b = Returns (None, Some err').
Proof.
  intros Hdir%String.eqb_neq Hlist.
  unfold CreateSummary, scanArtifacts. rewrite Hdir, Hlist.
  destruct (getVersion fs _ "main") as [goVersion [e|]]; [eauto|].
  destruct (getVersion fs _ "1") as [goRevision [e|]]; eauto.
Qed.

Lemma visitEntry_checksumUnreadable fs b archMap e :
  checksumUnreadable fs b e = true ->
  exists err, visitEntry fs b archMap e = ReturnErr err.
Proof.
  unfold checksumUnreadable, artifactPath. rewrite andb_true_iff.
  intros [[Hfile Hsuffix]%isChecksumFile_inv Hread].
  unfold visitEntry, checksumFile. rewrite Hfile, Hsuffix.
  destruct (getOrCreateArch archMap _) as [archMap' a].
  destruct (os_ReadFile fs _) as [data|err]; [discriminate | eauto].
Qed.

Lemma checksum_error_aborts rt fs b before e after archMap :
  ArtifactsDir b <> "" ->
  dir fs (ArtifactsDir b) = inl (before ++ e :: after) ->
  visitEntries fs b before ∅ = Next archMap ->
  checksumUnreadable fs b e = true ->
  exists err, CreateSummary rt fs b = Returns (None, Some err).
Proof.
  intros Hdir%String.eqb_neq Hlist Hbefore He.
  destruct (visitEntry_checksumUnreadable fs b archMap e He) as [err Herr].
  unfold CreateSummary, scanArtifacts.
  rewrite Hdir, Hlist, visitEntries_app, Hbefore. simpl. rewrite Herr.
  destruct (getVersion fs _ "main") as [goVersion [e1|]]; [eauto|].
  destruct (getVersion fs _ "1") as [goRevision [e2|]]; eauto.
Qed.

Lemma visitEntries_no_unreadable fs b entries archMap archMap' :
  visitEntries fs b entries archMap = Next archMap' ->
  existsb (checksumUnreadable fs b) entries = false.
Proof.
  revert archMap; induction entries as [|e entries IH]; intros archMap; simpl.
  - reflexivity.
  - destruct (checksumUnreadable fs b e) eqn:He.
    + destruct (visitEntry_checksumUnreadable fs b archMap e He) as [err ->].
      discriminate.
    + destruct (visitEntry fs b archMap e); try discriminate. apply IH.
Qed.

(** A manifest is returned only without a hard error, and then with a nil
    error. *)
Lemma manifest_means_no_hard_error rt fs b m err :
  CreateSummary rt fs b = Returns (Some m, err) ->
  hardError fs b = false /\ err = None.
Proof.
  intros Hrun.
  destruct (markerUnreadable fs (versionPath b)) eqn:Hv.
  { destruct (marker_error_aborts rt fs b (or_introl Hv)) as [e He].
    congruence. }
  destruct (markerUnreadable fs (revisionPath b)) eqn:Hr.
  { destruct (marker_error_aborts rt fs b (or_intror Hr)) as [e He].
    congruence. }
  apply CreateSummary_manifest_inv in Hrun
    as (goVersion & goRevision & archMap & _ & _ & Hscan & -> & _).
  split; [|reflexivity].
  unfold hardError. rewrite Hv, Hr. simpl.
  unfold scanArtifacts in Hscan.
  destruct (String.eqb (ArtifactsDir b) ""); [reflexivity|]. simpl.
  destruct (dir fs (ArtifactsDir b)) as [entries|]; [|discriminate].
  now apply visitEntries_no_unreadable in Hscan.
Qed.

(** What is returned is a manifest or an error, never both and never
    neither. *)
Lemma returns_manifest_or_error rt fs b result :
  CreateSummary rt fs b = Returns result ->
  (exists m, result = (Some m, None)) \/ (exists err, result = (None, Some err)).
Proof.
  unfold CreateSummary.
  destruct (getVersion fs _ "main") as [goVersion [e|]];
    [intros [= <-]; eauto|].
  destruct (getVersion fs _ "1") as [goRevision [e|]];
    [intros [= <-]; eauto|].
  destruct (scanArtifacts fs b); intros [= <-]; eauto.
Qed.

(** C8, on the code. Without any hard error a call can still end without a
    manifest: a checksum file that holds no token makes it fault. *)
Theorem no_hard_error_yet_no_manifest :
  hardError fsEmptyChecksum (sampleInfo "out") = false
  /\ forall rt,
       CreateSummary rt fsEmptyChecksum (sampleInfo "out")
       = Panics (IndexOutOfRange 0 0).
Proof.
  split; [vm_compute; reflexivity|].
  intros rt. vm_compute. reflexivity.
Qed.

(** * Pairing a checksum file with its archive *)

Lemma getOrCreateArch_spec archMap name :
  snd (getOrCreateArch archMap name) = archAt archMap name
  /\ forall a,
       storeArch (fst (getOrCreateArch archMap name)) name a
       = <[name := a]> archMap.
Proof.
  unfold getOrCreateArch, archAt, storeArch.
  destruct (archMap !! name); simpl; split; try reflexivity.
  intros a. apply insert_insert_eq.
Qed.

(** The three ways one iteration goes on to the next: the entry is left
    alone, its checksum is stored, or its url and platform are. *)
Lemma visitEntry_next fs b archMap e archMap' :
  visitEntry fs b archMap e = Next archMap' ->
  (archMap' = archMap /\ isChecksumFile e = false /\ isArchiveFile e = false)
  \/ (isChecksumFile e = true
      /\ exists data sum,
           os_ReadFile fs (artifactPath b (Name e)) = inl data
           /\ index (strings.Fields data) 0 = Returns sum
           /\ let key := strings.TrimSuffix (Name e) checksumSuffix in
              archMap' =
                <[key := {| Env := Env (archAt archMap key);
                            SHA256 := sum;
                            URL := URL (archAt archMap key) |}]> archMap)
  \/ (isArchiveFile e = true
      /\ exists suffix goOS goArch,
           archiveSuffixOf (Name e) = Some suffix
           /\ index (osArchParts (Name e) suffix) 0 = Returns goOS
           /\ index (osArchParts (Name e) suffix) 1 = Returns goArch
           /\ archMap' =
                <[Name e := {| Env := {| GOOS := goOS; GOARCH := goArch |};
                               SHA256 := SHA256 (archAt archMap (Name e));
                               URL := DestinationURL b +:+ "/" +:+ Name e |}]>
                  archMap).
Proof.
  unfold visitEntry, isChecksumFile, isArchiveFile.
  destruct (IsDir e); [intros [= <-]; now left|]. cbn [negb andb].
  destruct (strings.HasSuffix (Name e) checksumSuffix); cbn [negb andb].
  - unfold checksumFile. fold (artifactPath b (Name e)).
    destruct (getOrCreateArch_spec archMap
                (strings.TrimSuffix (Name e) checksumSuffix)) as [Ha Hstore].
    destruct (getOrCreateArch archMap _) as [archMap1 a]. simpl in Ha, Hstore.
    destruct (os_ReadFile fs _) as [data|]; [|discriminate].
    destruct (index (strings.Fields data) 0) as [sum|] eqn:Hsum; [|discriminate].
    intros [= <-]. right; left. split; [reflexivity|].
    exists data, sum. rewrite Hstore, Ha. auto.
  - destruct (archiveSuffixOf (Name e)) as [suffix|] eqn:Hsuffix.
    + rewrite (archiveLoop_found b _ _ suffix archMap Hsuffix).
      unfold archiveFile.
      destruct (index (osArchParts (Name e) suffix) 0) as [goOS|] eqn:Hos;
        [|discriminate].
      destruct (index (osArchParts (Name e) suffix) 1) as [goArch|] eqn:Harch;
        [|discriminate].
      destruct (getOrCreateArch_spec archMap (Name e)) as [Ha Hstore].
      destruct (getOrCreateArch archMap _) as [archMap1 a]. simpl in Ha, Hstore.
      intros [= <-]. right; right. split; [reflexivity|].
      exists suffix, goOS, goArch. rewrite Hstore, Ha. auto.
    + rewrite (archiveLoop_none b _ _ archMap Hsuffix).
      intros [= <-]. now left.
Qed.

Section LoopInvariants.

Context (fs : FS) (b : BuildResultsDirectoryInfo).
Context (P : gmap string Arch -> Prop).
Hypothesis P_step :
  forall archMap e archMap',
    P archMap -> visitEntry fs b archMap e = Next archMap' -> P archMap'.

Lemma visitEntries_keeps entries archMap archMap' :
  P archMap -> visitEntries fs b entries archMap = Next archMap' -> P archMap'.
Proof.
  revert archMap; induction entries as [|e entries IH]; intros archMap HP; simpl.
  - now intros [= <-].
  - destruct (visitEntry fs b archMap e) as [archMap1| |] eqn:He;
      try discriminate.
    apply IH. now apply (P_step archMap e).
Qed.

Lemma visitEntries_reaches e entries archMap archMap' :
  (forall archMap0 archMap1,
     visitEntry fs b archMap0 e = Next archMap1 -> P archMap1) ->
  e ∈ entries ->
  visitEntries fs b entries archMap = Next archMap' ->
  P archMap'.
Proof.
  intros He Hin. revert archMap.
  induction Hin as [e entries | e e' entries Hin IH]; intros archMap; simpl.
  - destruct (visitEntry fs b archMap e) as [archMap1| |] eqn:Hstep;
      try discriminate.
    intros Hrest.
    apply (visitEntries_keeps entries archMap1);
      [now apply (He archMap) | exact Hrest].
  - destruct (visitEntry fs b archMap e'); try discriminate.
    now apply IH.
Qed.

End LoopInvariants.

Section NameFacts.

Implicit Types r s name key : string.

Lemma app_inj_suffix r s r' s' :
  r +:+ s = r' +:+ s' -> String.length s = String.length s' ->
  r = r' /\ s = s'.
Proof.
  intros Heq Hlen.
  assert (String.length r = String.length r') as Hr.
  { apply (f_equal String.length) in Heq. rewrite !length_app in Heq. lia. }
  clear Hlen. revert r' Heq Hr.
  induction r as [|c r IH]; intros [|c' r'] Heq Hr; try discriminate.
  - now split.
  - rewrite !app_cons in Heq. injection Heq as -> Heq.
    injection Hr as Hr. destruct (IH r' Heq Hr) as [-> ->]. now split.
Qed.

(** A name that ends like an archive does not end like a checksum
    file. *)
Lemma archive_not_checksum name suffix :
  archiveSuffixOf name = Some suffix ->
  strings.HasSuffix name checksumSuffix = false.
Proof.
  unfold archiveSuffixOf, archiveSuffixes, checksumSuffix. simpl.
  intros Hfind.
  destruct (strings.HasSuffix name ".sha256") eqn:Hsum; [|reflexivity].
  apply HasSuffix_inv in Hsum as [r' ->]. exfalso.
  destruct (strings.HasSuffix _ ".tar.gz") eqn:Htar.
  - apply HasSuffix_inv in Htar as [r Heq].
    apply app_inj_suffix in Heq as [_ Heq]; [discriminate | reflexivity].
  - destruct (strings.HasSuffix _ ".zip") eqn:Hzip; [|discriminate].
    apply HasSuffix_inv in Hzip as [r Heq].
    change (r' +:+ ".sha256") with (r' +:+ ".sh" +:+ "a256") in Heq.
    rewrite <- app_assoc_string in Heq.
    apply app_inj_suffix in Heq as [_ Heq]; [discriminate | reflexivity].
Qed.

Lemma archiveSuffixOf_isArchiveFile name suffix :
  archiveSuffixOf name = Some suffix ->
  isArchiveFile (mkDirEntry name false) = true
  /\ isChecksumFile (mkDirEntry name false) = false.
Proof.
  intros Hsuffix. unfold isArchiveFile, isChecksumFile. simpl.
  now rewrite (archive_not_checksum name suffix Hsuffix), Hsuffix.
Qed.

(** The key of a checksum file gives its name back. *)
Lemma checksum_key_name e key :
  isChecksumFile e = true ->
  strings.TrimSuffix (Name e) checksumSuffix = key ->
  Name e = key +:+ checksumSuffix.
Proof.
  intros [_ [r Hr]%HasSuffix_inv]%isChecksumFile_inv.
  rewrite Hr, TrimSuffix_app. now intros ->.
Qed.

Lemma url_of_key_inj dest key key' :
  dest +:+ "/" +:+ key = dest +:+ "/" +:+ key' -> key = key'.
Proof.
  intros H. apply (inj (String.app dest)) in H.
  rewrite !app_cons in H. now injection H.
Qed.

Lemma url_of_key_nonempty dest key : dest +:+ "/" +:+ key <> "".
Proof.
  intros H. apply (f_equal String.length) in H.
  rewrite !length_app in H. simpl in H. lia.
Qed.

End NameFacts.

Section Pairing.

Context (fs : FS) (b : BuildResultsDirectoryInfo).

Lemma archAt_found (archMap : gmap string Arch) name a :
  archMap !! name = Some a -> archAt archMap name = a.
Proof. unfold archAt. now intros ->. Qed.

Lemma urlsFromKeys_step archMap e archMap' :
  urlsFromKeys b archMap ->
  visitEntry fs b archMap e = Next archMap' ->
  urlsFromKeys b archMap'.
Proof.
  intros Hurls Hstep key a.
  apply visitEntry_next in Hstep
    as [(-> & _) | [(_ & data & sum & _ & _ & ->)
                   | (_ & suffix & goOS & goArch & _ & _ & _ & ->)]].
  - apply Hurls.
  - cbv zeta. rewrite lookup_insert. case_decide as Hkey.
    + intros [= <-]. simpl. subst key. unfold archAt.
      destruct (archMap !! _) as [a0|] eqn:Ha0; simpl; [eauto | now left].
    + apply Hurls.
  - rewrite lookup_insert. case_decide as Hkey.
    + intros [= <-]. simpl. subst key. now right.
    + apply Hurls.
Qed.

Context (name suffix : string).
Hypothesis name_archive : archiveSuffixOf name = Some suffix.

Lemma hasArchiveFacts_visit archMap archMap' :
  visitEntry fs b archMap (mkDirEntry name false) = Next archMap' ->
  hasArchiveFacts b name suffix archMap'.
Proof.
  intros Hstep.
  destruct (archiveSuffixOf_isArchiveFile name suffix name_archive)
    as [Harchive Hsum].
  apply visitEntry_next in Hstep
    as [(_ & _ & Hno) | [(Hyes & _)
                       | (_ & suffix' & goOS & goArch & Hs & Hos & Harch & ->)]];
    [congruence.. |].
  simpl in *. rewrite name_archive in Hs. injection Hs as <-.
  eexists. split; [apply lookup_insert_eq|]. simpl. auto.
Qed.

Lemma hasArchiveFacts_step archMap e archMap' :
  hasArchiveFacts b name suffix archMap ->
  visitEntry fs b archMap e = Next archMap' ->
  hasArchiveFacts b name suffix archMap'.
Proof.
  intros (a & Ha & Hurl & Hos & Harch) Hstep.
  apply visitEntry_next in Hstep
    as [(-> & _) | [(_ & data & sum & _ & _ & ->)
                   | (_ & suffix' & goOS & goArch & Hs & Hos' & Harch' & ->)]].
  - now exists a.
  - cbv zeta.
    destruct (decide (strings.TrimSuffix (Name e) checksumSuffix = name))
      as [-> | Hne].
    + eexists. split; [apply lookup_insert_eq|].
      simpl. now rewrite (archAt_found _ _ _ Ha).
    + exists a. now rewrite lookup_insert_ne.
  - destruct (decide (Name e = name)) as [Heq | Hne].
    + rewrite Heq in *. rewrite name_archive in Hs. injection Hs as <-.
      eexists. split; [apply lookup_insert_eq|]. simpl. auto.
    + exists a. now rewrite lookup_insert_ne.
Qed.

Context (data : string).
Hypothesis checksum_content :
  file fs (artifactPath b (name +:+ checksumSuffix)) = Content data.

Lemma checksum_read : 
  os_ReadFile fs (artifactPath b (name +:+ checksumSuffix)) = inl data.
Proof. unfold os_ReadFile. now rewrite checksum_content. Qed.

Lemma hasChecksumFact_visit archMap archMap' :
  visitEntry fs b archMap (mkDirEntry (name +:+ checksumSuffix) false)
    = Next archMap' ->
  hasChecksumFact name data archMap'.
Proof.
  intros Hstep.
  assert (isChecksumFile (mkDirEntry (name +:+ checksumSuffix) false) = true)
    as Hsum.
  { unfold isChecksumFile. simpl. now rewrite HasSuffix_app. }
  assert (isArchiveFile (mkDirEntry (name +:+ checksumSuffix) false) = false)
    as Hno.
  { unfold isArchiveFile. simpl. now rewrite HasSuffix_app. }
  apply visitEntry_next in Hstep
    as [(_ & Hnot & _) | [(_ & data' & sum & Hread & Hfirst & ->)
                        | (Hyes & _)]];
    [congruence | | congruence].
  simpl in *. rewrite checksum_read in Hread. injection Hread as <-.
  rewrite TrimSuffix_app.
  eexists. split; [apply lookup_insert_eq | exact Hfirst].
Qed.

Lemma hasChecksumFact_step archMap e archMap' :
  hasChecksumFact name data archMap ->
  visitEntry fs b archMap e = Next archMap' ->
  hasChecksumFact name data archMap'.
Proof.
  intros (a & Ha & Hfirst) Hstep.
  apply visitEntry_next in Hstep
    as [(-> & _) | [(Hsum & data' & sum & Hread & Hfirst' & ->)
                   | (_ & suffix' & goOS & goArch & _ & _ & _ & ->)]].
  - now exists a.
  - cbv zeta.
    destruct (decide (strings.TrimSuffix (Name e) checksumSuffix = name))
      as [Heq | Hne].
    + rewrite (checksum_key_name e name Hsum Heq), checksum_read in Hread.
      injection Hread as <-. rewrite Heq.
      eexists. split; [apply lookup_insert_eq | exact Hfirst'].
    + exists a. now rewrite lookup_insert_ne.
  - destruct (decide (Name e = name)) as [Heq | Hne].
    + rewrite Heq.
      eexists. split; [apply lookup_insert_eq|].
      simpl. now rewrite (archAt_found _ _ _ Ha).
    + exists a. now rewrite lookup_insert_ne.
Qed.

(** After the loop the map has one entry for [name] with all four facts,
    and no other entry has its url. *)
Lemma paired_in_map entries archMap :
  mkDirEntry name false ∈ entries ->
  mkDirEntry (name +:+ checksumSuffix) false ∈ entries ->
  visitEntries fs b entries ∅ = Next archMap ->
  exists a,
    archMap !! name = Some a
    /\ URL a = DestinationURL b +:+ "/" +:+ name
    /\ index (strings.Fields data) 0 = Returns (SHA256 a)
    /\ index (osArchParts name suffix) 0 = Returns (GOOS (Env a))
    /\ index (osArchParts name suffix) 1 = Returns (GOARCH (Env a))
    /\ forall key a',
         key <> name -> archMap !! key = Some a' -> URL a' <> URL a.
Proof.
  intros Harchive Hsum Hloop.
  destruct (visitEntries_reaches fs b (hasArchiveFacts b name suffix)
              hasArchiveFacts_step _ entries ∅ archMap
              hasArchiveFacts_visit Harchive Hloop)
    as (a & Ha & Hurl & Hos & Harch).
  destruct (visitEntries_reaches fs b (hasChecksumFact name data)
              hasChecksumFact_step _ entries ∅ archMap
              hasChecksumFact_visit Hsum Hloop)
    as (a2 & Ha2 & Hfirst).
  rewrite Ha in Ha2. injection Ha2 as <-.
  assert (urlsFromKeys b archMap) as Hurls.
  { apply (visitEntries_keeps fs b (urlsFromKeys b) urlsFromKeys_step
             entries ∅); [|exact Hloop].
    intros key a0. now rewrite lookup_empty. }
  exists a. repeat (split; [assumption|]).
  intros key a' Hkey Ha'. rewrite Hurl.
  destruct (Hurls key a' Ha') as [-> | ->].
  - intros H. symmetry in H. now apply url_of_key_nonempty in H.
  - intros H%url_of_key_inj. contradiction.
Qed.

End Pairing.

(** C4. When the directory has an archive [name] and the checksum file
    [name ++ ".sha256"], the key of the checksum file is the key of the
    archive, and every manifest that is returned has exactly one entry with
    the archive's url; that entry has the first token of the checksum file
    as its sha256 and the two parts of the archive's OS/ARCH part as its
    platform.  This holds for every order of the directory listing. *)
Theorem checksum_and_archive_merge rt fs b name suffix data entries m err :
  lawful rt ->
  CreateSummary rt fs b = Returns (Some m, err) ->
  ArtifactsDir b <> "" ->
  dir fs (ArtifactsDir b) = inl entries ->
  mkDirEntry name false ∈ entries ->
  mkDirEntry (name +:+ checksumSuffix) false ∈ entries ->
  archiveSuffixOf name = Some suffix ->
  file fs (artifactPath b (name +:+ checksumSuffix)) = Content data ->
  strings.TrimSuffix (name +:+ checksumSuffix) checksumSuffix = name
  /\ exists before a after,
       Arches m = before ++ a :: after
       /\ URL a = DestinationURL b +:+ "/" +:+ name
       /\ index (strings.Fields data) 0 = Returns (SHA256 a)
       /\ index (osArchParts name suffix) 0 = Returns (GOOS (Env a))
       /\ index (osArchParts name suffix) 1 = Returns (GOARCH (Env a))
       /\ forall a', a' ∈ before ++ after -> URL a' <> URL a.
Proof.
  intros (Hrange & Hperm & _) Hrun Hdir Hlist Harchive Hsum Hsuffix Hdata.
  split; [apply TrimSuffix_app|].
  apply CreateSummary_manifest_inv in Hrun
    as (goVersion & goRevision & archMap & _ & _ & Hscan & _ & ->).
  unfold scanArtifacts in Hscan.
  apply String.eqb_neq in Hdir. rewrite Hdir, Hlist in Hscan.
  destruct (paired_in_map fs b name suffix Hsuffix data Hdata entries archMap
              Harchive Hsum Hscan)
    as (a & Ha & Hurl & Hfirst & Hos & Harch & Hothers).
  simpl.
  assert (Permutation (sortSlice rt lessURL (mapRange rt archMap))
            (a :: List.map snd (map_to_list (delete name archMap)))) as Hp.
  { rewrite Hperm, Hrange, <- (map_to_list_delete archMap name a Ha).
    reflexivity. }
  destruct (Permutation_vs_cons_inv Hp) as (before & after & Hsplit).
  exists before, a, after. repeat (split; [assumption|]).
  rewrite Hsplit in Hp. symmetry in Hp.
  apply Permutation_cons_app_inv in Hp.
  intros a' Ha'. rewrite <- Hp in Ha'.
  apply list_elem_of_fmap in Ha' as ([key a0] & -> & Hin).
  apply elem_of_map_to_list in Hin. simpl.
  apply lookup_delete_Some in Hin as [Hkey Hlook].
  now apply (Hothers key).
Qed.

Lemma checksum_and_archive_merge_example :
  CreateSummary backwardRuntime fsRelease (sampleInfo "out")
  = Returns (Some releaseManifest, None)
  /\ exists before a after,
       Arches releaseManifest = before ++ a :: after
       /\ URL a = "https://example.test/go/go.1.21.0-3.linux-amd64.tar.gz"
       /\ Returns "abc123" = Returns (SHA256 a)
       /\ Returns "linux" = Returns (GOOS (Env a))
       /\ Returns "amd64" = Returns (GOARCH (Env a))
       /\ forall a', a' ∈ before ++ after -> URL a' <> URL a.
Proof.
  split; [vm_compute; reflexivity|].
  apply (checksum_and_archive_merge backwardRuntime fsRelease
           (sampleInfo "out") "go.1.21.0-3.linux-amd64.tar.gz" ".tar.gz"
           "abc123  go.tar.gz"
           [mkDirEntry "go.1.21.0-3.linux-amd64.tar.gz.sha256" false;
            mkDirEntry "go.1.21.0-3.linux-amd64.tar.gz" false]
           releaseManifest None).
  - apply backwardRuntime_lawful.
  - vm_compute; reflexivity.
  - vm_compute; discriminate.
  - vm_compute; reflexivity.
  - apply list_elem_of_In. simpl. auto.
  - apply list_elem_of_In. simpl. auto.
  - vm_compute; reflexivity.
  - vm_compute; reflexivity.
Defined.

(** * One iteration, read without the map *)

Lemma visitEntry_effect fs b archMap e :
  visitEntry fs b archMap e =
  match effectOf fs b e with
  | Next eff => Next (applyEffect b eff archMap)
  | ReturnErr err => ReturnErr err
  | Fault p => Fault p
  end.
Proof.
  unfold visitEntry, effectOf.
  destruct (IsDir e); [reflexivity|].
  destruct (strings.HasSuffix (Name e) checksumSuffix).
  - unfold checksumFile. fold (artifactPath b (Name e)).
    destruct (getOrCreateArch_spec archMap
                (strings.TrimSuffix (Name e) checksumSuffix)) as [Ha Hstore].
    destruct (getOrCreateArch archMap _) as [archMap1 a]. simpl in Ha, Hstore.
    destruct (os_ReadFile fs _) as [data|]; [|reflexivity].
    destruct (index (strings.Fields data) 0) as [sum|]; [|reflexivity].
    simpl. now rewrite Hstore, Ha.
  - destruct (archiveSuffixOf (Name e)) as [suffix|] eqn:Hsuffix.
    + rewrite (archiveLoop_found b _ _ suffix archMap Hsuffix).
      unfold archiveFile.
      destruct (index (osArchParts (Name e) suffix) 0) as [goOS|]; [|reflexivity].
      destruct (index (osArchParts (Name e) suffix) 1) as [goArch|]; [|reflexivity].
      destruct (getOrCreateArch_spec archMap (Name e)) as [Ha Hstore].
      destruct (getOrCreateArch archMap _) as [archMap1 a]. simpl in Ha, Hstore.
      simpl. now rewrite Hstore, Ha.
    + now rewrite (archiveLoop_none b _ _ archMap Hsuffix).
Qed.

(** How an iteration ends is read off the entry: an error for a checksum
    file that cannot be read, a fault for an entry that faults, and the
    next iteration otherwise. *)
Lemma effectOf_error fs b e :
  checksumUnreadable fs b e = true <-> exists err, effectOf fs b e = ReturnErr err.
Proof.
  unfold checksumUnreadable, isChecksumFile, effectOf.
  destruct (IsDir e); simpl.
  { split; [discriminate | intros [err H]; discriminate]. }
  destruct (strings.HasSuffix (Name e) checksumSuffix); simpl.
  - destruct (os_ReadFile fs _) as [data|err].
    + split; [discriminate|]. intros [err H].
      destruct (index (strings.Fields data) 0); discriminate.
    + split; eauto.
  - split; [discriminate|]. intros [err H].
    destruct (archiveSuffixOf (Name e)) as [suffix|]; [|discriminate].
    destruct (index (osArchParts (Name e) suffix) 0); [|discriminate].
    destruct (index (osArchParts (Name e) suffix) 1); discriminate.
Qed.

Lemma Split_nonempty s sep : strings.Split s sep <> [].
Proof.
  destruct s as [|c s]; simpl; [discriminate|].
  destruct (Ascii.eqb c sep); [discriminate|].
  destruct (strings.Split s sep); discriminate.
Qed.

Lemma effectOf_fault fs b e :
  entryFaults fs b e = true <-> exists p, effectOf fs b e = Fault p.
Proof.
  unfold entryFaults, checksumWithoutToken, archiveTooShort, isArchiveFile,
    isChecksumFile, effectOf.
  destruct (IsDir e); simpl.
  { split; [discriminate | intros [p H]; discriminate]. }
  destruct (strings.HasSuffix (Name e) checksumSuffix); simpl.
  - rewrite orb_false_r.
    destruct (os_ReadFile fs _) as [data|err].
    + destruct (strings.Fields data) as [|sum rest]; simpl.
      * split; eauto.
      * split; [discriminate | intros [p H]; discriminate].
    + split; [discriminate | intros [p H]; discriminate].
  - destruct (archiveSuffixOf (Name e)) as [suffix|]; simpl.
    + destruct (osArchParts (Name e) suffix) as [|goOS [|goArch rest]] eqn:Hparts;
        simpl.
      * now apply Split_nonempty in Hparts.
      * split; eauto.
      * split; [discriminate | intros [p H]; discriminate].
    + split; [discriminate | intros [p H]; discriminate].
Qed.

(** The faults there are: index 0 of no tokens, index 1 of one part. *)
Lemma effectOf_fault_kind fs b e p :
  effectOf fs b e = Fault p ->
  p = IndexOutOfRange 0 0 \/ p = IndexOutOfRange 1 1.
Proof.
  unfold effectOf.
  destruct (IsDir e); [discriminate|].
  destruct (strings.HasSuffix (Name e) checksumSuffix).
  - destruct (os_ReadFile fs _) as [data|err]; [|discriminate].
    destruct (strings.Fields data); [intros [= <-]; now left | discriminate].
  - destruct (archiveSuffixOf (Name e)) as [suffix|]; [|discriminate].
    destruct (osArchParts (Name e) suffix) as [|goOS [|goArch rest]] eqn:Hparts;
      simpl; try discriminate.
    + now apply Split_nonempty in Hparts.
    + intros [= <-]. now right.
Qed.

(** The loop goes through exactly the listings in which no checksum file is
    unreadable and no entry faults. *)
Lemma visitEntries_next_iff fs b entries archMap :
  (exists archMap', visitEntries fs b entries archMap = Next archMap')
  <-> existsb (checksumUnreadable fs b) entries = false
      /\ existsb (entryFaults fs b) entries = false.
Proof.
  revert archMap; induction entries as [|e entries IH]; intros archMap; simpl.
  - split; eauto.
  - rewrite visitEntry_effect, !orb_false_iff.
    destruct (effectOf fs b e) as [eff|err|p] eqn:Heff.
    + rewrite IH.
      assert (checksumUnreadable fs b e = false) as ->.
      { destruct (checksumUnreadable fs b e) eqn:H; [|reflexivity].
        apply effectOf_error in H as [err H]. congruence. }
      assert (entryFaults fs b e = false) as ->.
      { destruct (entryFaults fs b e) eqn:H; [|reflexivity].
        apply effectOf_fault in H as [p H]. congruence. }
      tauto.
    + split; [intros [m H]; discriminate|].
      rewrite (proj2 (effectOf_error fs b e)) by eauto.
      intros [[H _] _]. discriminate.
    + split; [intros [m H]; discriminate|].
      rewrite (proj2 (effectOf_fault fs b e)) by eauto.
      intros [_ [H _]]. discriminate.
Qed.

Lemma visitEntries_fault_kind fs b entries archMap p :
  visitEntries fs b entries archMap = Fault p ->
  p = IndexOutOfRange 0 0 \/ p = IndexOutOfRange 1 1.
Proof.
  revert archMap; induction entries as [|e entries IH]; intros archMap; simpl.
  - discriminate.
  - rewrite visitEntry_effect.
    destruct (effectOf fs b e) as [eff|err|q] eqn:Heff.
    + apply IH.
    + discriminate.
    + intros [= <-]. now apply (effectOf_fault_kind fs b e).
Qed.

Lemma hardError_false fs b :
  hardError fs b = false ->
  markerUnreadable fs (versionPath b) = false
  /\ markerUnreadable fs (revisionPath b) = false
  /\ (ArtifactsDir b <> "" ->
      exists entries,
        dir fs (ArtifactsDir b) = inl entries
        /\ existsb (checksumUnreadable fs b) entries = false).
Proof.
  unfold hardError. rewrite !orb_false_iff.
  intros [[Hv Hr] Hdir]. repeat split; try assumption.
  intros Hne%String.eqb_neq. rewrite Hne in Hdir. simpl in Hdir.
  destruct (dir fs (ArtifactsDir b)) as [entries|]; [eauto | discriminate].
Qed.

(** * When a manifest is returned *)

(** X1. A manifest is returned exactly on the inputs without hard error
    whose listing has no entry that faults: no checksum file without a
    token, no archive whose OS/ARCH part has fewer than two parts. *)
Theorem summary_returned_iff rt fs b :
  (exists m, CreateSummary rt fs b = Returns (Some m, None))
  <-> hardError fs b = false /\ anyFault fs b = false.
Proof.
  split.
  - intros [m Hrun].
    split; [now apply (manifest_means_no_hard_error rt fs b m None)|].
    apply CreateSummary_manifest_inv in Hrun
      as (goVersion & goRevision & archMap & _ & _ & Hscan & _).
    unfold scanArtifacts in Hscan. unfold anyFault.
    destruct (String.eqb (ArtifactsDir b) ""); [reflexivity|]. simpl.
    destruct (dir fs (ArtifactsDir b)) as [entries|]; [|reflexivity].
    now apply (visitEntries_next_iff fs b entries ∅); exists archMap.
  - intros [(Hv & Hr & Hdir)%hardError_false Hfault].
    destruct (getVersion_readable _ _ "main" Hv) as [goVersion HgetV].
    destruct (getVersion_readable _ _ "1" Hr) as [goRevision HgetR].
    assert (exists archMap, scanArtifacts fs b = Next archMap) as [archMap Hscan].
    { unfold scanArtifacts. unfold anyFault in Hfault.
      destruct (String.eqb_spec (ArtifactsDir b) "") as [|Hne]; [eauto|].
      destruct (Hdir Hne) as (entries & Hlist & Hreadable).
      rewrite Hlist in Hfault |- *. simpl in Hfault.
      now apply visitEntries_next_iff. }
    eexists. exact (CreateSummary_manifest rt _ _ _ _ _ HgetV HgetR Hscan).
Qed.

Lemma visitEntries_fault_entry fs b entries archMap p :
  visitEntries fs b entries archMap = Fault p ->
  existsb (entryFaults fs b) entries = true.
Proof.
  revert archMap; induction entries as [|e entries IH]; intros archMap; simpl.
  - discriminate.
  - rewrite visitEntry_effect.
    destruct (effectOf fs b e) as [eff|err|q] eqn:Heff.
    + intros Hrest%IH. rewrite Hrest. apply orb_true_r.
    + discriminate.
    + intros _. rewrite (proj2 (effectOf_fault fs b e)); eauto.
Qed.

(** X2. A call ends in one of four ways: it returns a manifest and no
    error, it returns an error and no manifest, or it faults on index 0 of
    an empty list of tokens or on index 1 of a single OS/ARCH part; and it
    faults only with readable markers and an entry that faults. *)
Theorem summary_outcomes rt fs b :
  ((exists m, CreateSummary rt fs b = Returns (Some m, None))
   \/ (exists err, CreateSummary rt fs b = Returns (None, Some err))
   \/ CreateSummary rt fs b = Panics (IndexOutOfRange 0 0)
   \/ CreateSummary rt fs b = Panics (IndexOutOfRange 1 1))
  /\ (forall p,
        CreateSummary rt fs b = Panics p ->
        markerUnreadable fs (versionPath b) = false
        /\ markerUnreadable fs (revisionPath b) = false
        /\ anyFault fs b = true).
Proof.
  unfold CreateSummary. fold (versionPath b) (revisionPath b).
  destruct (markerUnreadable fs (versionPath b)) eqn:Hv.
  { destruct (getVersion_unreadable _ _ "main" Hv) as [err ->].
    split; [eauto | discriminate]. }
  destruct (getVersion_readable _ _ "main" Hv) as [goVersion ->].
  destruct (markerUnreadable fs (revisionPath b)) eqn:Hr.
  { destruct (getVersion_unreadable _ _ "1" Hr) as [err ->].
    split; [eauto | discriminate]. }
  destruct (getVersion_readable _ _ "1" Hr) as [goRevision ->].
  destruct (scanArtifacts fs b) as [archMap|err|p] eqn:Hscan.
  - split; [eauto | discriminate].
  - split; [eauto | discriminate].
  - unfold scanArtifacts in Hscan. unfold anyFault.
    destruct (String.eqb (ArtifactsDir b) ""); [discriminate|].
    destruct (dir fs (ArtifactsDir b)) as [entries|]; [|discriminate].
    split.
    + destruct (visitEntries_fault_kind _ _ _ _ _ Hscan) as [-> | ->]; auto.
    + intros q _. repeat split. simpl.
      now apply (visitEntries_fault_entry fs b entries ∅ p).
Qed.

(** * Which error is returned *)

(** X3. The marker files are read first, the version marker before the
    revision marker: an unreadable version marker decides the result
    whatever else is on the file system, an unreadable revision marker does
    after a readable version marker, and either error names the path of the
    marker (both under the words "VERSION file"). *)
Theorem marker_errors_come_first rt fs b :
  let report path outcome :=
    exists cause,
      outcome = Returns (None, Some (Errorf ("unable to open VERSION file '"
                                             +:+ path +:+ "'") cause))
      \/ outcome = Returns (None, Some (Errorf ("unable to read VERSION file '"
                                                +:+ path +:+ "'") cause)) in
  (markerUnreadable fs (versionPath b) = true ->
   report (versionPath b) (CreateSummary rt fs b))
  /\ (markerUnreadable fs (versionPath b) = false ->
      markerUnreadable fs (revisionPath b) = true ->
      report (revisionPath b) (CreateSummary rt fs b)).
Proof.
  assert (forall path defaultVersion,
            markerUnreadable fs path = true ->
            exists cause,
              getVersion fs path defaultVersion
              = ("", Some (Errorf ("unable to open VERSION file '"
                                   +:+ path +:+ "'") cause))
              \/ getVersion fs path defaultVersion
                 = ("", Some (Errorf ("unable to read VERSION file '"
                                      +:+ path +:+ "'") cause))) as Hget.
  { intros path d. unfold markerUnreadable, getVersion.
    destruct (file fs path) as [|err|err|data]; try discriminate; eauto.
    destruct (bufio.firstLine data); [discriminate | eauto]. }
  cbv zeta. unfold CreateSummary. fold (versionPath b) (revisionPath b).
  split.
  - intros Hv. destruct (Hget _ "main" Hv) as [cause [-> | ->]]; eauto.
  - intros Hv Hr.
    destruct (getVersion_readable _ _ "main" Hv) as [goVersion ->].
    destruct (Hget _ "1" Hr) as [cause [-> | ->]]; eauto.
Qed.

Lemma marker_errors_come_first_example :
  exists cause,
    CreateSummary forwardRuntime fsVersionIsDirectory (sampleInfo "out")
    = Returns (None, Some (Errorf "unable to open VERSION file 'src/VERSION'"
                             cause))
    \/ CreateSummary forwardRuntime fsVersionIsDirectory (sampleInfo "out")
       = Returns (None, Some (Errorf "unable to read VERSION file 'src/VERSION'"
                                cause)).
Proof.
  exact (proj1 (marker_errors_come_first forwardRuntime fsVersionIsDirectory
                  (sampleInfo "out")) eq_refl).
Defined.

(** X4. With readable markers, an artifacts directory that cannot be
    listed makes the call return the error of the listing itself, not
    wrapped; and the first checksum file that cannot be read, when the
    entries before it are read without error or fault, makes it return that
    error under the words "unable to read checksum file" and the file's
    path. *)
Theorem listing_errors_are_returned rt fs b :
  markerUnreadable fs (versionPath b) = false ->
  markerUnreadable fs (revisionPath b) = false ->
  ArtifactsDir b <> "" ->
  (forall err,
     dir fs (ArtifactsDir b) = inr err ->
     CreateSummary rt fs b = Returns (None, Some err))
  /\ (forall before e after cause,
        dir fs (ArtifactsDir b) = inl (before ++ e :: after) ->
        existsb (checksumUnreadable fs b) before = false ->
        existsb (entryFaults fs b) before = false ->
        isChecksumFile e = true ->
        os_ReadFile fs (artifactPath b (Name e)) = inr cause ->
        CreateSummary rt fs b
        = Returns (None,
                   Some (Errorf ("unable to read checksum file '"
                                 +:+ artifactPath b (Name e) +:+ "'") cause))).
Proof.
  intros Hv Hr Hdir%String.eqb_neq.
  destruct (getVersion_readable _ _ "main" Hv) as [goVersion HgetV].
  destruct (getVersion_readable _ _ "1" Hr) as [goRevision HgetR].
  unfold CreateSummary, scanArtifacts. fold (versionPath b) (revisionPath b).
  rewrite HgetV, HgetR, Hdir. split.
  - now intros err ->.
  - intros before e after cause -> Hreadable Hfaults He Hread.
    destruct (proj2 (visitEntries_next_iff fs b before ∅)
                (conj Hreadable Hfaults)) as [archMap Hbefore].
    rewrite visitEntries_app, Hbefore. simpl. rewrite visitEntry_effect.
    apply isChecksumFile_inv in He as [Hfile Hsuffix].
    unfold effectOf. now rewrite Hfile, Hsuffix, Hread.
Qed.

Lemma listing_errors_are_returned_example :
  CreateSummary forwardRuntime fsBare (sampleInfo "out")
  = Returns (None, Some ErrNotExist)
  /\ CreateSummary forwardRuntime fsLockedChecksum (sampleInfo "out")
     = Returns (None,
                Some (Errorf
                        "unable to read checksum file 'out/go.linux-amd64.tar.gz.sha256'"
                        (OSError "permission denied"))).
Proof.
  split.
  - apply (listing_errors_are_returned forwardRuntime fsBare (sampleInfo "out"));
      try reflexivity.
    vm_compute; discriminate.
  - assert (ArtifactsDir (sampleInfo "out") <> "") as Hdir
      by (vm_compute; discriminate).
    apply (proj2 (listing_errors_are_returned forwardRuntime fsLockedChecksum
                    (sampleInfo "out") eq_refl eq_refl Hdir)
             [mkDirEntry "go.linux-amd64.tar.gz" false]
             (mkDirEntry "go.linux-amd64.tar.gz.sha256" false) []);
      reflexivity.
Defined.

(** * The listing, reordered and thinned *)


(** What the two kinds of effect say of the entry they come from. *)
Lemma effectOf_checksum fs b e key sum :
  effectOf fs b e = Next (SetChecksum key sum) ->
  isChecksumFile e = true
  /\ Name e = key +:+ checksumSuffix
  /\ exists data,
       os_ReadFile fs (artifactPath b (key +:+ checksumSuffix)) = inl data
       /\ index (strings.Fields data) 0 = Returns sum.
Proof.
  unfold effectOf, isChecksumFile.
  destruct (IsDir e) eqn:Hfile; [discriminate|].
  destruct (strings.HasSuffix (Name e) checksumSuffix) eqn:Hsuffix.
  - destruct (os_ReadFile fs _) as [data|] eqn:Hread; [|discriminate].
    destruct (index (strings.Fields data) 0) as [sum'|] eqn:Hsum; [|discriminate].
    intros [= Hkey <-].
    assert (Name e = key +:+ checksumSuffix) as Hname.
    { apply checksum_key_name; [|exact Hkey].
      unfold isChecksumFile. now rewrite Hfile, Hsuffix. }
    rewrite Hname in Hread. eauto.
  - destruct (archiveSuffixOf (Name e)) as [suffix|]; [|discriminate].
    destruct (index (osArchParts (Name e) suffix) 0); [|discriminate].
    destruct (index (osArchParts (Name e) suffix) 1); discriminate.
Qed.

Lemma effectOf_archive fs b e name goOS goArch :
  effectOf fs b e = Next (SetArchive name goOS goArch) ->
  isArchiveFile e = true
  /\ Name e = name
  /\ exists suffix,
       archiveSuffixOf name = Some suffix
       /\ index (osArchParts name suffix) 0 = Returns goOS
       /\ index (osArchParts name suffix) 1 = Returns goArch.
Proof.
  unfold effectOf, isArchiveFile.
  destruct (IsDir e); [discriminate|].
  destruct (strings.HasSuffix (Name e) checksumSuffix).
  - destruct (os_ReadFile fs _) as [data|]; [|discriminate].
    destruct (index (strings.Fields data) 0); discriminate.
  - destruct (archiveSuffixOf (Name e)) as [suffix|] eqn:Hsuffix; [|discriminate].
    destruct (index (osArchParts (Name e) suffix) 0) as [os|] eqn:Hos;
      [|discriminate].
    destruct (index (osArchParts (Name e) suffix) 1) as [arch|] eqn:Harch;
      [|discriminate].
    intros [= <- <- <-]. eauto 10.
Qed.

Lemma effectOf_ignore fs b e :
  isArtifact e = false -> effectOf fs b e = Next Ignore.
Proof.
  unfold isArtifact, isChecksumFile, isArchiveFile, effectOf.
  destruct (IsDir e); [reflexivity|]. simpl.
  destruct (strings.HasSuffix (Name e) checksumSuffix); [discriminate|]. simpl.
  now destruct (archiveSuffixOf (Name e)).
Qed.




(** The loop looks at the files alone. *)
Lemma visitEntries_files fs b dirs' entries archMap :
  visitEntries {| file := file fs; dir := dirs' |} b entries archMap
  = visitEntries fs b entries archMap.
Proof.
  revert archMap; induction entries as [|e entries IH]; intros archMap; simpl.
  - reflexivity.
  - change (visitEntry {| file := file fs; dir := dirs' |} b archMap e)
      with (visitEntry fs b archMap e).
    destruct (visitEntry fs b archMap e); [apply IH | reflexivity..].
Qed.



Lemma visitEntries_artifacts fs b entries archMap :
  visitEntries fs b (List.filter isArtifact entries) archMap
  = visitEntries fs b entries archMap.
Proof.
  revert archMap; induction entries as [|e entries IH]; intros archMap; simpl.
  - reflexivity.
  - destruct (isArtifact e) eqn:He; simpl.
    + destruct (visitEntry fs b archMap e); [apply IH | reflexivity..].
    + rewrite visitEntry_effect, (effectOf_ignore fs b e He). apply IH.
Qed.

(** X6. Subdirectories and files that end neither like a checksum file
    nor like an archive count for nothing: two listings with the same
    checksum files and archives, in the same order, make the call end the
    same way. *)
Theorem other_entries_are_ignored rt fs b entries entries' dirs' :
  dir fs (ArtifactsDir b) = inl entries ->
  dirs' (ArtifactsDir b) = inl entries' ->
  List.filter isArtifact entries = List.filter isArtifact entries' ->
  CreateSummary rt {| file := file fs; dir := dirs' |} b = CreateSummary rt fs b.
Proof.
  intros Hlist Hlist' Hsame.
  unfold CreateSummary, scanArtifacts, getVersion. simpl.
  rewrite Hlist, Hlist', visitEntries_files.
  now rewrite <- (visitEntries_artifacts fs b entries'), <- Hsame,
    visitEntries_artifacts.
Qed.

Lemma other_entries_are_ignored_example :
  CreateSummary backwardRuntime
    {| file := file fsMixed; dir := fun _ => inl mixedFiles |} (sampleInfo "out")
  = CreateSummary backwardRuntime fsMixed (sampleInfo "out").
Proof.
  apply (other_entries_are_ignored backwardRuntime fsMixed (sampleInfo "out")
           mixedListing mixedFiles); reflexivity.
Defined.

(** * What the manifest holds *)

(** A property kept by the effect of every entry of the listing is kept by
    the loop. *)
Lemma visitEntries_effects fs b (P : gmap string Arch -> Prop) entries :
  (forall archMap e eff,
     e ∈ entries -> effectOf fs b e = Next eff ->
     P archMap -> P (applyEffect b eff archMap)) ->
  forall archMap archMap',
    P archMap -> visitEntries fs b entries archMap = Next archMap' -> P archMap'.
Proof.
  intros Hstep.
  assert (forall l, (forall e, e ∈ l -> e ∈ entries) ->
          forall archMap archMap',
            P archMap -> visitEntries fs b l archMap = Next archMap' ->
            P archMap') as Hall.
  { induction l as [|e l IH]; intros Hsub archMap archMap' HP; simpl.
    - now intros [= <-].
    - rewrite visitEntry_effect.
      destruct (effectOf fs b e) as [eff| |] eqn:Heff; try discriminate.
      apply IH.
      + intros e' He'. apply Hsub. now right.
      + apply (Hstep archMap e); [apply Hsub; now left | assumption..]. }
  now apply Hall.
Qed.

(** The entries of a manifest are the values of the map. *)
Lemma manifest_entries rt (archMap : gmap string Arch) a :
  lawful rt ->
  a ∈ sortSlice rt lessURL (mapRange rt archMap)
  <-> exists key, archMap !! key = Some a.
Proof.
  intros (Hrange & Hperm & _). rewrite Hperm, Hrange, list_elem_of_fmap.
  split.
  - intros ([key a'] & -> & Hin). exists key. now apply elem_of_map_to_list.
  - intros [key Hkey]. exists (key, a). split; [reflexivity|].
    now apply elem_of_map_to_list.
Qed.

Lemma manifest_from_listing rt fs b entries m err :
  CreateSummary rt fs b = Returns (Some m, err) ->
  ArtifactsDir b <> "" ->
  dir fs (ArtifactsDir b) = inl entries ->
  exists archMap,
    visitEntries fs b entries ∅ = Next archMap
    /\ Arches m = sortSlice rt lessURL (mapRange rt archMap).
Proof.
  intros Hrun Hdir%String.eqb_neq Hlist.
  apply CreateSummary_manifest_inv in Hrun
    as (goVersion & goRevision & archMap & _ & _ & Hscan & _ & ->).
  unfold scanArtifacts in Hscan. rewrite Hdir, Hlist in Hscan.
  now exists archMap.
Qed.

(** X7. A checksum file whose archive is not in the listing is no error:
    the manifest has an entry with the first token of the file as sha256,
    with an empty url and an empty platform. *)
Theorem checksum_without_archive rt fs b entries name data m err :
  lawful rt ->
  CreateSummary rt fs b = Returns (Some m, err) ->
  ArtifactsDir b <> "" ->
  dir fs (ArtifactsDir b) = inl entries ->
  mkDirEntry (name +:+ checksumSuffix) false ∈ entries ->
  file fs (artifactPath b (name +:+ checksumSuffix)) = Content data ->
  (forall e, e ∈ entries -> isArchiveFile e = true -> Name e <> name) ->
  exists a,
    a ∈ Arches m
    /\ URL a = ""
    /\ Env a = {| GOOS := ""; GOARCH := "" |}
    /\ index (strings.Fields data) 0 = Returns (SHA256 a).
Proof.
  intros Hrt Hrun Hdir Hlist Hin Hdata Horphan.
  destruct (manifest_from_listing rt fs b entries m err Hrun Hdir Hlist)
    as (archMap & Hloop & ->).
  destruct (visitEntries_reaches fs b (hasChecksumFact name data)
              (hasChecksumFact_step fs b name data Hdata) _ entries ∅ archMap
              (hasChecksumFact_visit fs b name data Hdata) Hin Hloop)
    as (a & Ha & Hsum).
  exists a. split; [apply manifest_entries; eauto|].
  assert (forall a0, archMap !! name = Some a0 ->
                     URL a0 = "" /\ Env a0 = {| GOOS := ""; GOARCH := "" |})
    as Hbare.
  { apply (visitEntries_effects fs b
             (fun archMap => forall a0, archMap !! name = Some a0 ->
                URL a0 = "" /\ Env a0 = {| GOOS := ""; GOARCH := "" |})
             entries) with (archMap := ∅); [| |exact Hloop].
    - intros archMap0 e eff He Heff HP a0.
      destruct eff as [|key sum|name' goOS goArch]; simpl.
      + apply HP.
      + rewrite lookup_insert. case_decide as Hkey; [|apply HP].
        intros [= <-]. simpl. subst key. unfold archAt.
        destruct (archMap0 !! name) as [a1|] eqn:Ha1; simpl; [now apply HP | auto].
      + rewrite lookup_insert. case_decide as Hkey; [|apply HP].
        apply effectOf_archive in Heff as (Harchive & Hname & _).
        exfalso. apply (Horphan e He Harchive). congruence.
    - intros a0. now rewrite lookup_empty. }
  destruct (Hbare a Ha) as [Hurl Henv]. auto.
Qed.

Lemma checksum_without_archive_example :
  CreateSummary forwardRuntime fsMixed (sampleInfo "out")
  = Returns (Some mixedManifest, None)
  /\ exists a,
       a ∈ Arches mixedManifest
       /\ URL a = ""
       /\ Env a = {| GOOS := ""; GOARCH := "" |}
       /\ index (strings.Fields "0a1b2c") 0 = Returns (SHA256 a).
Proof.
  split; [vm_compute; reflexivity|].
  apply (checksum_without_archive forwardRuntime fsMixed (sampleInfo "out")
           mixedListing "go.darwin-arm64.tar.gz" "0a1b2c" _ None).
  - apply forwardRuntime_lawful.
  - vm_compute; reflexivity.
  - vm_compute; discriminate.
  - reflexivity.
  - apply list_elem_of_In. simpl. auto.
  - reflexivity.
  - intros e [<- | [<- | [<- | [<- | []]]]]%list_elem_of_In Harchive Hname;
      vm_compute in Harchive, Hname;
      first [discriminate Harchive | discriminate Hname].
Defined.

(** X8. An archive whose checksum file is not in the listing is no error
    either: the manifest has an entry with its url and platform and an
    empty sha256. *)
Theorem archive_without_checksum rt fs b entries name suffix m err :
  lawful rt ->
  CreateSummary rt fs b = Returns (Some m, err) ->
  ArtifactsDir b <> "" ->
  dir fs (ArtifactsDir b) = inl entries ->
  mkDirEntry name false ∈ entries ->
  archiveSuffixOf name = Some suffix ->
  (forall e, e ∈ entries -> isChecksumFile e = true ->
             Name e <> name +:+ checksumSuffix) ->
  exists a,
    a ∈ Arches m
    /\ URL a = DestinationURL b +:+ "/" +:+ name
    /\ index (osArchParts name suffix) 0 = Returns (GOOS (Env a))
    /\ index (osArchParts name suffix) 1 = Returns (GOARCH (Env a))
    /\ SHA256 a = "".
Proof.
  intros Hrt Hrun Hdir Hlist Hin Hsuffix Halone.
  destruct (manifest_from_listing rt fs b entries m err Hrun Hdir Hlist)
    as (archMap & Hloop & ->).
  destruct (visitEntries_reaches fs b (hasArchiveFacts b name suffix)
              (hasArchiveFacts_step fs b name suffix Hsuffix) _ entries ∅ archMap
              (hasArchiveFacts_visit fs b name suffix Hsuffix) Hin Hloop)
    as (a & Ha & Hurl & Hos & Harch).
  exists a. split; [apply manifest_entries; eauto|].
  repeat (split; [assumption|]).
  apply (visitEntries_effects fs b
           (fun archMap => forall a0, archMap !! name = Some a0 -> SHA256 a0 = "")
           entries) with (archMap := ∅) (archMap' := archMap);
    [| |exact Hloop|exact Ha].
  - intros archMap0 e eff He Heff HP a0.
    destruct eff as [|key sum|name' goOS goArch]; simpl.
    + apply HP.
    + rewrite lookup_insert. case_decide as Hkey; [|apply HP].
      apply effectOf_checksum in Heff as (Hsum & Hname & _).
      exfalso. apply (Halone e He Hsum). congruence.
    + rewrite lookup_insert. case_decide as Hkey; [|apply HP].
      intros [= <-]. simpl. subst name'. unfold archAt.
      destruct (archMap0 !! name) as [a1|] eqn:Ha1; simpl; [now apply HP | auto].
  - intros a0. now rewrite lookup_empty.
Qed.

Lemma archive_without_checksum_example :
  CreateSummary forwardRuntime fsMixed (sampleInfo "out")
  = Returns (Some mixedManifest, None)
  /\ exists a,
       a ∈ Arches mixedManifest
       /\ URL a = "https://example.test/go/go.windows-amd64.zip"
       /\ Returns "windows" = Returns (GOOS (Env a))
       /\ Returns "amd64" = Returns (GOARCH (Env a))
       /\ SHA256 a = "".
Proof.
  split; [vm_compute; reflexivity|].
  apply (archive_without_checksum forwardRuntime fsMixed (sampleInfo "out")
           mixedListing "go.windows-amd64.zip" ".zip" _ None).
  - apply forwardRuntime_lawful.
  - vm_compute; reflexivity.
  - vm_compute; discriminate.
  - reflexivity.
  - apply list_elem_of_In. simpl. auto.
  - reflexivity.
  - intros e [<- | [<- | [<- | [<- | []]]]]%list_elem_of_In Hsum Hname;
      vm_compute in Hsum, Hname;
      first [discriminate Hsum | discriminate Hname].
Defined.

Lemma isArtifact_effect fs b e eff :
  effectOf fs b e = Next eff -> eff <> Ignore -> isArtifact e = true.
Proof.
  intros Heff Hne. destruct (isArtifact e) eqn:He; [reflexivity|].
  rewrite (effectOf_ignore fs b e He) in Heff. congruence.
Qed.

Lemma visitEntries_size fs b entries archMap archMap' :
  visitEntries fs b entries archMap = Next archMap' ->
  size archMap' <= size archMap + List.length (List.filter isArtifact entries).
Proof.
  revert archMap; induction entries as [|e entries IH]; intros archMap; simpl.
  - intros [= <-]. lia.
  - rewrite visitEntry_effect.
    destruct (effectOf fs b e) as [eff| |] eqn:Heff; try discriminate.
    intros Hrest%IH.
    assert (size (applyEffect b eff archMap)
            <= size archMap + if isArtifact e then 1 else 0) as Hstep.
    { destruct eff as [|key sum|name goOS goArch]; simpl.
      - lia.
      - rewrite (isArtifact_effect fs b e _ Heff) by discriminate.
        rewrite map_size_insert. destruct (archMap !! key); simpl; lia.
      - rewrite (isArtifact_effect fs b e _ Heff) by discriminate.
        rewrite map_size_insert. destruct (archMap !! name); simpl; lia. }
    destruct (isArtifact e); simpl; lia.
Qed.

(** X9. A manifest holds nothing the listing does not account for: it has
    at most as many entries as the listing has checksum files and archives,
    every url in it is that of an archive in the listing, and every sha256
    in it is the first token of a checksum file in the listing. *)
Theorem entries_come_from_files rt fs b entries m err :
  lawful rt ->
  CreateSummary rt fs b = Returns (Some m, err) ->
  ArtifactsDir b <> "" ->
  dir fs (ArtifactsDir b) = inl entries ->
  List.length (Arches m) <= List.length (List.filter isArtifact entries)
  /\ forall a,
       a ∈ Arches m ->
       (URL a = ""
        \/ exists e,
             e ∈ entries /\ isArchiveFile e = true
             /\ URL a = DestinationURL b +:+ "/" +:+ Name e)
       /\ (SHA256 a = ""
           \/ exists e data,
                e ∈ entries /\ isChecksumFile e = true
                /\ os_ReadFile fs (artifactPath b (Name e)) = inl data
                /\ index (strings.Fields data) 0 = Returns (SHA256 a)).
Proof.
  intros Hrt Hrun Hdir Hlist.
  destruct (manifest_from_listing rt fs b entries m err Hrun Hdir Hlist)
    as (archMap & Hloop & ->).
  split.
  - destruct Hrt as (Hrange & Hperm & _).
    rewrite Hperm, Hrange, length_map, length_map_to_list.
    apply visitEntries_size in Hloop. rewrite map_size_empty in Hloop. lia.
  - intros a [key Ha]%(manifest_entries rt archMap a Hrt).
    revert key a Ha.
    apply (visitEntries_effects fs b
             (fun archMap => forall key a, archMap !! key = Some a ->
                (URL a = ""
                 \/ exists e,
                      e ∈ entries /\ isArchiveFile e = true
                      /\ URL a = DestinationURL b +:+ "/" +:+ Name e)
                /\ (SHA256 a = ""
                    \/ exists e data,
                         e ∈ entries /\ isChecksumFile e = true
                         /\ os_ReadFile fs (artifactPath b (Name e)) = inl data
                         /\ index (strings.Fields data) 0 = Returns (SHA256 a)))
             entries) with (archMap := ∅); [| |exact Hloop].
    + intros archMap0 e eff He Heff HP key a.
      assert (forall key0,
                (URL (archAt archMap0 key0) = ""
                 \/ exists e,
                      e ∈ entries /\ isArchiveFile e = true
                      /\ URL (archAt archMap0 key0)
                         = DestinationURL b +:+ "/" +:+ Name e)
                /\ (SHA256 (archAt archMap0 key0) = ""
                    \/ exists e data,
                         e ∈ entries /\ isChecksumFile e = true
                         /\ os_ReadFile fs (artifactPath b (Name e)) = inl data
                         /\ index (strings.Fields data) 0
                            = Returns (SHA256 (archAt archMap0 key0)))) as Hat.
      { intros key0. unfold archAt.
        destruct (archMap0 !! key0) as [a0|] eqn:Ha0; simpl;
          [now apply (HP key0) | auto]. }
      destruct eff as [|key' sum|name goOS goArch]; simpl.
      * apply HP.
      * rewrite lookup_insert. case_decide as Hkey; [|apply HP].
        intros [= <-]. simpl. split; [apply Hat|]. right.
        apply effectOf_checksum in Heff as (Hsum & Hname & data & Hread & Hfirst).
        exists e, data. rewrite Hname. auto.
      * rewrite lookup_insert. case_decide as Hkey; [|apply HP].
        intros [= <-]. simpl. split; [|apply Hat]. right.
        apply effectOf_archive in Heff as (Harchive & Hname & _).
        exists e. rewrite Hname. auto.
    + intros key a. now rewrite lookup_empty.
Qed.

Lemma entries_come_from_files_example :
  CreateSummary forwardRuntime fsMixed (sampleInfo "out")
  = Returns (Some mixedManifest, None)
  /\ List.length (Arches mixedManifest)
     <= List.length (List.filter isArtifact mixedListing).
Proof.
  split; [vm_compute; reflexivity|].
  apply (entries_come_from_files forwardRuntime fsMixed (sampleInfo "out")
           mixedListing mixedManifest None).
  - apply forwardRuntime_lawful.
  - vm_compute; reflexivity.
  - vm_compute; discriminate.
  - reflexivity.
Defined.

Lemma urlsGiven_perm arches arches' :
  Permutation arches arches' ->
  Permutation (urlsGiven arches) (urlsGiven arches').
Proof.
  unfold urlsGiven.
  induction 1 as [|a l l' _ IH|a1 a2 l|l1 l2 l3 _ IH1 _ IH2]; simpl.
  - reflexivity.
  - destruct (negb (String.eqb (URL a) "")); [now constructor | exact IH].
  - destruct (negb (String.eqb (URL a1) "")), (negb (String.eqb (URL a2) ""));
      try reflexivity.
    apply perm_swap.
  - now transitivity (List.filter (fun url => negb (String.eqb url ""))
                        (List.map URL l2)).
Qed.

Lemma urlsGiven_NoDup b (pairs : list (string * Arch)) :
  NoDup (List.map fst pairs) ->
  (forall key a, (key, a) ∈ pairs ->
                 URL a = "" \/ URL a = DestinationURL b +:+ "/" +:+ key) ->
  NoDup (urlsGiven (List.map snd pairs)).
Proof.
  unfold urlsGiven.
  induction pairs as [|[key a] pairs IH]; intros Hkeys Hurls; simpl.
  - constructor.
  - apply NoDup_cons in Hkeys as [Hkey Hkeys].
    assert (NoDup (List.filter (fun url => negb (String.eqb url ""))
                     (List.map URL (List.map snd pairs)))) as Hrest.
    { apply IH; [exact Hkeys|]. intros key' a' Hin. apply Hurls. now right. }
    destruct (String.eqb_spec (URL a) "") as [Hempty|Hgiven]; simpl;
      [exact Hrest|].
    apply NoDup_cons. split; [|exact Hrest].
    rewrite list_elem_of_In, filter_In, <- list_elem_of_In, list_elem_of_fmap.
    intros [(a' & Hsame & Hin) _].
    apply list_elem_of_fmap in Hin as ([key' a''] & -> & Hin). simpl in *.
    destruct (Hurls key a) as [? | Hurl]; [now left | contradiction|].
    destruct (Hurls key' a'' ) as [Hempty | Hurl']; [now right | congruence|].
    rewrite Hurl, Hurl' in Hsame. apply url_of_key_inj in Hsame. subst key'.
    apply Hkey. apply list_elem_of_fmap. now exists (key, a'').
Qed.

(** X12. No url stands twice in a manifest: entries that share a url
    share the empty one. *)
Theorem urls_are_unique rt fs b m err :
  lawful rt ->
  CreateSummary rt fs b = Returns (Some m, err) ->
  NoDup (urlsGiven (Arches m)).
Proof.
  intros Hrt Hrun.
  apply CreateSummary_manifest_inv in Hrun
    as (goVersion & goRevision & archMap & _ & _ & Hscan & _ & ->).
  simpl.
  assert (urlsFromKeys b archMap) as Hurls.
  { unfold scanArtifacts in Hscan.
    destruct (String.eqb (ArtifactsDir b) "").
    - injection Hscan as <-. intros key a. now rewrite lookup_empty.
    - destruct (dir fs (ArtifactsDir b)) as [entries|]; [|discriminate].
      apply (visitEntries_keeps fs b (urlsFromKeys b) (urlsFromKeys_step fs b)
               entries ∅); [|exact Hscan].
      intros key a. now rewrite lookup_empty. }
  destruct Hrt as (Hrange & Hperm & _).
  assert (Permutation (urlsGiven (sortSlice rt lessURL (mapRange rt archMap)))
                      (urlsGiven (List.map snd (map_to_list archMap)))) as ->.
  { apply urlsGiven_perm. now rewrite Hperm, Hrange. }
  apply (urlsGiven_NoDup b).
  - apply NoDup_fst_map_to_list.
  - intros key a Hin. apply (Hurls key). now apply elem_of_map_to_list.
Qed.

Lemma urls_are_unique_example :
  CreateSummary forwardRuntime fsMixed (sampleInfo "out")
  = Returns (Some mixedManifest, None)
  /\ NoDup (urlsGiven (Arches mixedManifest)).
Proof.
  split; [vm_compute; reflexivity|].
  apply (urls_are_unique forwardRuntime fsMixed (sampleInfo "out")
           mixedManifest None).
  - apply forwardRuntime_lawful.
  - vm_compute; reflexivity.
Defined.

(** Every key of the map is the name of an archive in the listing, or of a
    checksum file in it less the checksum suffix. *)
Lemma keys_come_from_files fs b entries archMap :
  visitEntries fs b entries ∅ = Next archMap ->
  forall key a,
    archMap !! key = Some a ->
    (exists e, e ∈ entries /\ isArchiveFile e = true /\ Name e = key)
    \/ (exists e, e ∈ entries /\ isChecksumFile e = true
                  /\ Name e = key +:+ checksumSuffix).
Proof.
  apply (visitEntries_effects fs b
           (fun archMap => forall key a, archMap !! key = Some a ->
              (exists e, e ∈ entries /\ isArchiveFile e = true /\ Name e = key)
              \/ (exists e, e ∈ entries /\ isChecksumFile e = true
                            /\ Name e = key +:+ checksumSuffix))
           entries).
  - intros archMap0 e eff He Heff HP key a.
    destruct eff as [|key' sum|name goOS goArch]; simpl.
    + apply HP.
    + rewrite lookup_insert. case_decide as Hkey; [|apply HP].
      intros _. subst key'. right.
      apply effectOf_checksum in Heff as (Hsum & Hname & _). eauto.
    + rewrite lookup_insert. case_decide as Hkey; [|apply HP].
      intros _. subst name. left.
      apply effectOf_archive in Heff as (Harchive & Hname & _). eauto.
  - intros key a. now rewrite lookup_empty.
Qed.

Lemma listed_archive_has_url fs b entries archMap e :
  visitEntries fs b entries ∅ = Next archMap ->
  e ∈ entries -> isArchiveFile e = true ->
  exists a, archMap !! Name e = Some a
            /\ URL a = DestinationURL b +:+ "/" +:+ Name e.
Proof.
  intros Hloop He (Hfile & _ & suffix & Hsuffix)%isArchiveFile_inv.
  destruct e as [name isdir]. simpl in *. subst isdir.
  destruct (visitEntries_reaches fs b (hasArchiveFacts b name suffix)
              (hasArchiveFacts_step fs b name suffix Hsuffix) _ entries ∅ archMap
              (hasArchiveFacts_visit fs b name suffix Hsuffix) He Hloop)
    as (a & Ha & Hurl & _).
  eauto.
Qed.

(** X10. When every checksum file of the listing has its archive in the
    listing, the manifest does not depend on the order in which the map is
    ranged over nor on how the sort treats ties: any two runs on the same
    inputs end the same way. *)
Theorem balanced_listing_is_reproducible rt1 rt2 fs b entries :
  lawful rt1 -> lawful rt2 ->
  dir fs (ArtifactsDir b) = inl entries ->
  (forall e,
     e ∈ entries -> isChecksumFile e = true ->
     exists e', e' ∈ entries /\ isArchiveFile e' = true
                /\ Name e = Name e' +:+ checksumSuffix) ->
  CreateSummary rt1 fs b = CreateSummary rt2 fs b.
Proof.
  intros Hrt1 Hrt2 Hlist Hbalanced.
  apply runs_agree_on_distinct_urls; try assumption.
  intros archMap x y Hscan Hx Hy Hsame.
  unfold scanArtifacts in Hscan.
  destruct (String.eqb (ArtifactsDir b) "").
  { injection Hscan as <-. rewrite map_to_list_empty in Hx. inversion Hx. }
  rewrite Hlist in Hscan.
  assert (forall key a, archMap !! key = Some a ->
                        URL a = DestinationURL b +:+ "/" +:+ key) as Hurl.
  { intros key a Ha.
    assert (exists e, e ∈ entries /\ isArchiveFile e = true /\ Name e = key)
      as (e & He & Harchive & <-).
    { destruct (keys_come_from_files fs b entries archMap Hscan key a Ha)
        as [Hfound | (e & He & Hsum & Hname)]; [exact Hfound|].
      destruct (Hbalanced e He Hsum) as (e' & He' & Harchive & Hname').
      exists e'. repeat split; try assumption.
      rewrite Hname in Hname'.
      now apply app_inj_suffix in Hname' as [-> _]. }
    destruct (listed_archive_has_url fs b entries archMap e Hscan He Harchive)
      as (a' & Ha' & Hurl').
    congruence. }
  apply list_elem_of_fmap in Hx as ([kx x'] & -> & Hx).
  apply list_elem_of_fmap in Hy as ([ky y'] & -> & Hy).
  apply elem_of_map_to_list in Hx, Hy. simpl in *.
  rewrite (Hurl kx x' Hx), (Hurl ky y' Hy) in Hsame.
  apply url_of_key_inj in Hsame. congruence.
Qed.

Lemma balanced_listing_is_reproducible_example :
  CreateSummary forwardRuntime fsBalanced (sampleInfo "out")
  = CreateSummary backwardRuntime fsBalanced (sampleInfo "out").
Proof.
  apply (balanced_listing_is_reproducible forwardRuntime backwardRuntime
           fsBalanced (sampleInfo "out")
           [mkDirEntry "go.linux-amd64.tar.gz" false;
            mkDirEntry "go.linux-amd64.tar.gz.sha256" false;
            mkDirEntry "go.windows-amd64.zip" false;
            mkDirEntry "go.windows-amd64.zip.sha256" false]).
  - apply forwardRuntime_lawful.
  - apply backwardRuntime_lawful.
  - reflexivity.
  - intros e [<- | [<- | [<- | [<- | []]]]]%list_elem_of_In Hsum;
      try (vm_compute in Hsum; discriminate Hsum).
    + exists (mkDirEntry "go.linux-amd64.tar.gz" false).
      split; [apply list_elem_of_In; simpl; auto | split; reflexivity].
    + exists (mkDirEntry "go.windows-amd64.zip" false).
      split; [apply list_elem_of_In; simpl; auto | split; reflexivity].
Defined.

Lemma isArtifact_key fs b e eff :
  effectOf fs b e = Next eff ->
  match eff with
  | Ignore => isArtifact e = false
  | SetChecksum key _ => isArtifact e = true /\ keyOf e = key
  | SetArchive name _ _ => isArtifact e = true /\ keyOf e = name
  end.
Proof.
  unfold effectOf, isArtifact, keyOf, isChecksumFile, isArchiveFile.
  destruct (IsDir e); [now intros [= <-]|]. simpl.
  destruct (strings.HasSuffix (Name e) checksumSuffix); simpl.
  - destruct (os_ReadFile fs _) as [data|]; [|discriminate].
    destruct (index (strings.Fields data) 0); [|discriminate].
    now intros [= <-].
  - destruct (archiveSuffixOf (Name e)) as [suffix|]; [|now intros [= <-]].
    destruct (index (osArchParts (Name e) suffix) 0); [|discriminate].
    destruct (index (osArchParts (Name e) suffix) 1); [|discriminate].
    now intros [= <-].
Qed.

Lemma visitEntries_keys fs b entries archMap archMap' :
  visitEntries fs b entries archMap = Next archMap' ->
  forall key,
    is_Some (archMap' !! key)
    <-> is_Some (archMap !! key)
        \/ key ∈ List.map keyOf (List.filter isArtifact entries).
Proof.
  revert archMap; induction entries as [|e entries IH]; intros archMap; simpl.
  - intros [= <-] key. rewrite elem_of_nil. tauto.
  - rewrite visitEntry_effect.
    destruct (effectOf fs b e) as [eff| |] eqn:Heff; try discriminate.
    intros Hrest key. rewrite (IH _ Hrest key).
    pose proof (isArtifact_key fs b e eff Heff) as Hkey.
    destruct eff as [|key' sum|name goOS goArch]; simpl in *.
    + now rewrite Hkey.
    + destruct Hkey as [-> <-]. simpl.
      rewrite lookup_insert_is_Some, elem_of_cons.
      destruct (decide (keyOf e = key)); intuition congruence.
    + destruct Hkey as [-> <-]. simpl.
      rewrite lookup_insert_is_Some, elem_of_cons.
      destruct (decide (keyOf e = key)); intuition congruence.
Qed.

(** X15. A manifest has exactly one entry for each key of the listing:
    as many entries as there are different keys among its checksum files
    and archives, a checksum file and its archive having the same key. *)
Theorem one_entry_per_key rt fs b entries m err :
  lawful rt ->
  CreateSummary rt fs b = Returns (Some m, err) ->
  ArtifactsDir b <> "" ->
  dir fs (ArtifactsDir b) = inl entries ->
  List.length (Arches m)
  = List.length (remove_dups (List.map keyOf (List.filter isArtifact entries))).
Proof.
  intros (Hrange & Hperm & _) Hrun Hdir Hlist.
  destruct (manifest_from_listing rt fs b entries m err Hrun Hdir Hlist)
    as (archMap & Hloop & ->).
  rewrite Hperm, Hrange, length_map, <- (length_map fst).
  apply Permutation_length, NoDup_Permutation.
  - apply NoDup_fst_map_to_list.
  - apply NoDup_remove_dups.
  - intros key. rewrite elem_of_remove_dups.
    pose proof (visitEntries_keys fs b entries ∅ archMap Hloop key) as Hkeys.
    rewrite lookup_empty in Hkeys.
    assert (is_Some (archMap !! key)
            <-> key ∈ List.map keyOf (List.filter isArtifact entries)) as <-.
    { rewrite Hkeys. split; [intros [[a0 H0] | H]; [discriminate | exact H] | auto]. }
    rewrite list_elem_of_fmap. split.
    + intros ([key' a] & -> & Hin). exists a. now apply elem_of_map_to_list.
    + intros [a Ha]. exists (key, a). split; [reflexivity|].
      now apply elem_of_map_to_list.
Qed.

Lemma one_entry_per_key_example :
  CreateSummary backwardRuntime fsRelease (sampleInfo "out")
  = Returns (Some releaseManifest, None)
  /\ List.length (Arches releaseManifest) = 1.
Proof.
  split; [vm_compute; reflexivity|].
  apply (one_entry_per_key backwardRuntime fsRelease (sampleInfo "out")
           [mkDirEntry "go.1.21.0-3.linux-amd64.tar.gz.sha256" false;
            mkDirEntry "go.1.21.0-3.linux-amd64.tar.gz" false]
           releaseManifest None).
  - apply backwardRuntime_lawful.
  - vm_compute; reflexivity.
  - vm_compute; discriminate.
  - reflexivity.
Defined.

(** * The closure getOrCreateArch *)

(** X14. [getOrCreateArch] returns the entry the map has under the name
    and leaves the map alone, or registers an empty entry when there is
    none, which makes the map one larger; either way the entry is then in
    the map under the name, every other name is as before, and asking again
    changes nothing. *)
Theorem getOrCreateArch_lookup (archMap : gmap string Arch) name :
  let result := getOrCreateArch archMap name in
  fst result !! name = Some (snd result)
  /\ (forall other, other <> name -> fst result !! other = archMap !! other)
  /\ (forall a, archMap !! name = Some a -> result = (archMap, a))
  /\ (archMap !! name = None ->
      snd result = zeroArch /\ size (fst result) = S (size archMap))
  /\ getOrCreateArch (fst result) name = result.
Proof.
  cbv zeta. unfold getOrCreateArch.
  destruct (archMap !! name) as [a|] eqn:Ha; simpl.
  - rewrite Ha. repeat split; try congruence.
  - rewrite lookup_insert_eq. repeat split; try congruence.
    + intros other Hother. now apply lookup_insert_ne.
    + now apply map_size_insert_None.
Qed.

(** * The first line of a marker file *)

Section FirstLine.

Implicit Types line rest : string.

Lemma untilNewline_line line rest :
  Forall (fun c => c <> "010"%char) (list_ascii_of_string line) ->
  bufio.untilNewline (line +:+ String "010" rest) = Some line.
Proof.
  induction line as [|c line IH]; simpl; intros Hline.
  - reflexivity.
  - apply Forall_cons in Hline as [Hc Hline].
    apply Ascii.eqb_neq in Hc. rewrite Hc, (IH Hline). reflexivity.
Qed.

Lemma untilNewline_whole line :
  Forall (fun c => c <> "010"%char) (list_ascii_of_string line) ->
  bufio.untilNewline line = None.
Proof.
  induction line as [|c line IH]; simpl; intros Hline.
  - reflexivity.
  - apply Forall_cons in Hline as [Hc Hline].
    apply Ascii.eqb_neq in Hc. rewrite Hc, (IH Hline). reflexivity.
Qed.

Lemma dropCR_last line c :
  bufio.dropCR (line +:+ String c "")
  = if Ascii.eqb c "013" then line else line +:+ String c "".
Proof.
  induction line as [|d line IH].
  - simpl. now destruct (Ascii.eqb c "013").
  - rewrite app_cons. simpl. rewrite IH.
    destruct (line +:+ String c "") eqn:Hline.
    + destruct line; discriminate Hline.
    + now destruct (Ascii.eqb c "013").
Qed.

End FirstLine.

(** X11. Of a marker file only the first line counts: whatever follows
    the first line feed is not looked at, and the line is returned without
    the line feed and without a carriage return before it.  (The line must
    be shorter than the scanner's 64 KiB buffer.) *)
Theorem getVersion_first_line fs path defaultVersion line :
  Forall (fun c => c <> "010"%char) (list_ascii_of_string line) ->
  String.length line < bufio.MaxScanTokenSize ->
  (file fs path = Content line
   \/ exists rest, file fs path = Content (line +:+ String "010" rest)) ->
  getVersion fs path defaultVersion = (bufio.dropCR line, None)
  /\ (forall text, line = text +:+ String "013" "" -> bufio.dropCR line = text)
  /\ (forall text c, line = text +:+ String c "" -> c <> "013"%char ->
                     bufio.dropCR line = line)
  /\ (line = "" -> bufio.dropCR line = "").
Proof.
  intros Hline Hshort%Nat.ltb_lt Hfile. split; [|split; [|split]].
  - unfold getVersion, bufio.firstLine.
    destruct Hfile as [-> | [rest ->]].
    + now rewrite (untilNewline_whole line Hline), Hshort.
    + now rewrite (untilNewline_line line rest Hline), Hshort.
  - intros text ->. now rewrite dropCR_last.
  - intros text c -> Hc%Ascii.eqb_neq. now rewrite dropCR_last, Hc.
  - now intros ->.
Qed.

Lemma getVersion_first_line_example :
  getVersion fsLongVersion "src/VERSION" "main" = ("go1.21.0", None).
Proof.
  apply (getVersion_first_line fsLongVersion "src/VERSION" "main"
           ("go1.21.0" +:+ String "013" "")).
  - repeat (constructor; [discriminate|]). constructor.
  - apply Nat.ltb_lt. vm_compute. reflexivity.
  - right. now exists "time 2023-08-04".
Defined.

(** * The range of the branch mapper *)

(** X13. [GetDockerRepoTargetBranch] answers with the empty string, with
    "microsoft/main", or with the branch itself when that starts with
    "dev/official/", and with nothing else; "main" must be the whole
    branch, a longer branch that starts with it gets the empty string. *)
Theorem target_branch_range :
  (forall b,
     GetDockerRepoTargetBranch b = ""
     \/ GetDockerRepoTargetBranch b = "microsoft/main"
     \/ (GetDockerRepoTargetBranch b = Branch b
         /\ exists rest, Branch b = "dev/official/" +:+ rest))
  /\ (forall b c rest,
        Branch b = "main" +:+ String c rest ->
        GetDockerRepoTargetBranch b = "").
Proof.
  unfold GetDockerRepoTargetBranch. split.
  - intros b.
    destruct (String.eqb (Branch b) "main" || strings.HasPrefix (Branch b) "release-branch.");
      [auto|].
    destruct (strings.HasPrefix (Branch b) "dev/official/") eqn:Hdev; [|auto].
    apply HasPrefix_inv in Hdev. auto.
  - intros b c rest ->.
    destruct (String.eqb_spec ("main" +:+ String c rest) "main") as [He|_].
    { rewrite !app_cons in He. discriminate He. }
    destruct (strings.HasPrefix _ "release-branch.") eqn:H1.
    { apply HasPrefix_inv in H1 as [r Hr]. rewrite !app_cons in Hr. discriminate Hr. }
    destruct (strings.HasPrefix _ "dev/official/") eqn:H2; [|reflexivity].
    apply HasPrefix_inv in H2 as [r Hr]. rewrite !app_cons in Hr. discriminate Hr.
Qed.

Lemma target_branch_range_example :
  GetDockerRepoTargetBranch (mkBuildAssets "main-next" "" "" []) = "".
Proof.
  exact (proj2 target_branch_range (mkBuildAssets "main-next" "" "" [])
           "-"%char "next" eq_refl).
Defined.

(** * What is read, and what is stored *)

Lemma fieldsFrom_nonempty s skip cur :
  Forall (fun token => token <> "") (strings.fieldsFrom s skip cur).
Proof.
  assert (forall cur, Forall (fun token => token <> "") (strings.flush cur))
    as Hflush.
  { intros [|c cur']; simpl; [constructor|].
    constructor; [discriminate | constructor]. }
  revert skip cur; induction s as [|c s IH]; intros skip cur; simpl.
  - apply Hflush.
  - destruct skip as [|skip]; [|apply IH].
    destruct (strings.spaceWidth (String c s)); [apply IH|].
    apply Forall_app. split; [apply Hflush | apply IH].
Qed.

Lemma first_token_nonempty data sum :
  index (strings.Fields data) 0 = Returns sum -> sum <> "".
Proof.
  unfold index, strings.Fields.
  pose proof (fieldsFrom_nonempty data 0 "") as Htokens.
  destruct (strings.fieldsFrom data 0 "") as [|token tokens]; simpl;
    [discriminate|].
  intros [= <-]. now apply Forall_cons in Htokens as [Htoken _].
Qed.

(** X16. No entry of a manifest is empty: each has a url or a sha256. *)
Theorem entries_are_not_empty rt fs b m err a :
  lawful rt ->
  CreateSummary rt fs b = Returns (Some m, err) ->
  a ∈ Arches m ->
  URL a <> "" \/ SHA256 a <> "".
Proof.
  intros Hrt Hrun.
  apply CreateSummary_manifest_inv in Hrun
    as (goVersion & goRevision & archMap & _ & _ & Hscan & _ & ->).
  simpl. intros [key Ha]%(manifest_entries rt archMap a Hrt).
  revert key a Ha.
  unfold scanArtifacts in Hscan.
  destruct (String.eqb (ArtifactsDir b) "").
  { injection Hscan as <-. intros key a. now rewrite lookup_empty. }
  destruct (dir fs (ArtifactsDir b)) as [entries|]; [|discriminate].
  apply (visitEntries_effects fs b
           (fun archMap => forall key a, archMap !! key = Some a ->
                                         URL a <> "" \/ SHA256 a <> "")
           entries) with (archMap := ∅); [| |exact Hscan].
  - intros archMap0 e eff He Heff HP key a.
    destruct eff as [|key' sum|name goOS goArch]; simpl.
    + apply HP.
    + rewrite lookup_insert. case_decide as Hkey; [|apply HP].
      intros [= <-]. simpl. right.
      apply effectOf_checksum in Heff as (_ & _ & data & _ & Hfirst).
      now apply (first_token_nonempty data).
    + rewrite lookup_insert. case_decide as Hkey; [|apply HP].
      intros [= <-]. simpl. left. apply url_of_key_nonempty.
  - intros key a. now rewrite lookup_empty.
Qed.

Lemma entries_are_not_empty_example :
  CreateSummary forwardRuntime fsMixed (sampleInfo "out")
  = Returns (Some mixedManifest, None)
  /\ forall a, a ∈ Arches mixedManifest -> URL a <> "" \/ SHA256 a <> "".
Proof.
  split; [vm_compute; reflexivity|].
  intros a Ha.
  apply (entries_are_not_empty forwardRuntime fsMixed (sampleInfo "out")
           mixedManifest None a).
  - apply forwardRuntime_lawful.
  - vm_compute; reflexivity.
  - exact Ha.
Defined.

Lemma getVersion_same_file fs files' dirs' path defaultVersion :
  files' path = file fs path ->
  getVersion {| file := files'; dir := dirs' |} path defaultVersion
  = getVersion fs path defaultVersion.
Proof. unfold getVersion. simpl. now intros ->. Qed.

Lemma effectOf_same_file fs files' dirs' b e :
  (isChecksumFile e = true ->
   files' (artifactPath b (Name e)) = file fs (artifactPath b (Name e))) ->
  effectOf {| file := files'; dir := dirs' |} b e = effectOf fs b e.
Proof.
  unfold effectOf, isChecksumFile, os_ReadFile. simpl.
  destruct (IsDir e); [reflexivity|]. simpl.
  destruct (strings.HasSuffix (Name e) checksumSuffix); [|reflexivity].
  intros Hsame. now rewrite Hsame.
Qed.

Lemma visitEntries_same_files fs files' dirs' b entries archMap :
  (forall e, e ∈ entries -> isChecksumFile e = true ->
             files' (artifactPath b (Name e)) = file fs (artifactPath b (Name e))) ->
  visitEntries {| file := files'; dir := dirs' |} b entries archMap
  = visitEntries fs b entries archMap.
Proof.
  revert archMap; induction entries as [|e entries IH]; intros archMap Hsame;
    simpl.
  - reflexivity.
  - rewrite !visitEntry_effect, (effectOf_same_file fs files' dirs' b e)
      by (apply Hsame; now left).
    destruct (effectOf fs b e); try reflexivity.
    apply IH. intros e' He'. apply Hsame. now right.
Qed.

(** X17. The call reads the two marker files and the checksum files of
    the listing and nothing else: archives and all other files may hold
    anything, or be unreadable, without a change in how the call ends. *)
Theorem only_markers_and_checksums_are_read rt fs files' b :
  files' (versionPath b) = file fs (versionPath b) ->
  files' (revisionPath b) = file fs (revisionPath b) ->
  (forall entries e,
     dir fs (ArtifactsDir b) = inl entries ->
     e ∈ entries -> isChecksumFile e = true ->
     files' (artifactPath b (Name e)) = file fs (artifactPath b (Name e))) ->
  CreateSummary rt {| file := files'; dir := dir fs |} b = CreateSummary rt fs b.
Proof.
  intros Hv Hr Hsums.
  unfold CreateSummary. fold (versionPath b) (revisionPath b).
  rewrite (getVersion_same_file fs files' (dir fs) (versionPath b) "main" Hv),
    (getVersion_same_file fs files' (dir fs) (revisionPath b) "1" Hr).
  assert (scanArtifacts {| file := files'; dir := dir fs |} b
          = scanArtifacts fs b) as ->; [|reflexivity].
  unfold scanArtifacts. simpl.
  destruct (String.eqb (ArtifactsDir b) ""); [reflexivity|].
  destruct (dir fs (ArtifactsDir b)) as [entries|] eqn:Hlist; [|reflexivity].
  apply visitEntries_same_files. intros e. now apply Hsums.
Qed.

Lemma only_markers_and_checksums_are_read_example :
  CreateSummary forwardRuntime
    {| file := mixedLockedFiles; dir := dir fsMixed |} (sampleInfo "out")
  = CreateSummary forwardRuntime fsMixed (sampleInfo "out").
Proof.
  apply (only_markers_and_checksums_are_read forwardRuntime fsMixed
           mixedLockedFiles (sampleInfo "out")).
  - reflexivity.
  - reflexivity.
  - intros entries e [= <-]
      [<- | [<- | [<- | [<- | []]]]]%list_elem_of_In Hsum;
      first [reflexivity | vm_compute in Hsum; discriminate Hsum].
Defined.
